(** * Package cache (stale-while-revalidate) and table handler

    A shallow embedding of two services of the back end:

    - [PackageCacheService]
      (src/infrastructure/redis/services/package-cache.service.ts), the
      stale-while-revalidate reader of the package registry;
    - [TableHandlerService]
      (src/modules/table-management/services/table-handler.service.ts), the
      create / update / delete paths of the table metadata.

    An [async] method becomes a function in a state-and-exception monad over
    a [world] that holds the external stores (key-value store, database) and
    the list of calls made to them, in the order in which the method issues
    them. *)

From Stdlib Require Import ZArith String List Bool Lia.
From stdpp Require Import base option list gmap strings pretty.

Local Open Scope string_scope.
Local Open Scope list_scope.
Local Open Scope Z_scope.

(** ** JavaScript values and errors shared by the two services *)

(** [String.prototype.includes]. *)
Fixpoint includes (sub s : string) : bool :=
  String.prefix sub s
  || match s with
     | EmptyString => false
     | String _ s' => includes sub s'
     end.

(** Thrown values.  [JsError] is the built-in [Error]; the others are the
    classes imported from core/exceptions/custom-exceptions, each with the
    arguments its constructor is given at the throw sites (of the context
    object of a [DatabaseException] the [operation] tag is kept). *)
Inductive exn :=
| JsError (message : string)
| ValidationException (message : string) (details : list (string * string))
| DuplicateResourceException (resource field value : string)
| ResourceNotFoundException (resource id : string)
| DatabaseException (message : string) (operation : string).

(** Modelled from the spec: core/exceptions/custom-exceptions is not among
    the sources.  [error.message] of [ValidationException] and
    [DatabaseException] is the message their constructor receives; the two
    resource exceptions, which are only thrown from [catch] blocks and never
    inspected, get a message naming the resource. *)
Definition message_of (e : exn) : string :=
  match e with
  | JsError m => m
  | ValidationException m _ => m
  | DuplicateResourceException r f v => r +:+ " with " +:+ f +:+ " '" +:+ v +:+ "' already exists"
  | ResourceNotFoundException r i => r +:+ " with id '" +:+ i +:+ "' not found"
  | DatabaseException m _ => m
  end.

Inductive level := LLog | LWarn | LError | LDebug.

(** The outcome of running a method: a returned value or a thrown one. *)
Inductive outcome (A : Type) :=
| Ok (a : A)
| Throw (e : exn).
Arguments Ok {A} a.
Arguments Throw {A} e.

Definition is_ok {A} (o : outcome A) : bool :=
  match o with Ok _ => true | Throw _ => false end.

(** ** The monad of the methods: state passing with exceptions *)

Section Monad.
Context {W : Type}.

Definition M (A : Type) : Type := W -> outcome A * W.

Definition ret {A} (a : A) : M A := fun w => (Ok a, w).

Definition throw {A} (e : exn) : M A := fun w => (Throw e, w).

Definition bind {A B} (m : M A) (k : A -> M B) : M B :=
  fun w =>
    match m w with
    | (Ok a, w') => k a w'
    | (Throw e, w') => (Throw e, w')
    end.

(** [try { m } catch (error) { h error }] *)
Definition try_catch {A} (m : M A) (h : exn -> M A) : M A :=
  fun w =>
    match m w with
    | (Ok a, w') => (Ok a, w')
    | (Throw e, w') => h e w'
    end.

(** [try { m } finally { f }]: [f] runs on both exits; if [f] itself
    throws, its error replaces the outcome of [m]. *)
Definition try_finally {A} (m : M A) (f : M unit) : M A :=
  fun w =>
    let '(r, w') := m w in
    match f w' with
    | (Ok _, w'') => (r, w'')
    | (Throw e, w'') => (Throw e, w'')
    end.

(** [for (const x of xs) { body x }] *)
Fixpoint for_of {A} (xs : list A) (body : A -> M unit) : M unit :=
  match xs with
  | [] => ret tt
  | x :: xs' => bind (body x) (fun _ => for_of xs' body)
  end.
End Monad.

Arguments M W A : clear implicits.

Notation "'let*' x ':=' m 'in' k" := (bind m (fun x => k))
  (at level 10, x pattern, m at level 100, k at level 200).
Notation "m ';;' k" := (bind m (fun _ => k))
  (at level 100, k at level 200, right associativity).

(** ** PackageCacheService *)

Module PackageCache.

Definition GLOBAL_PACKAGES_KEY : string := "global:packages".
Definition STALE_PACKAGES_KEY : string := "stale:packages".
Definition REVALIDATING_PACKAGES_KEY : string := "revalidating:packages".

(** What the service stores under its keys: a registry snapshot
    ([string[]]) or the marker string ['true']. *)
Inductive value :=
| VArr (packages : list string)
| VStr (s : string).

#[global] Instance value_eq_dec : EqDecision value.
Proof. solve_decision. Defined.

(** JavaScript truthiness, as tested by [if (cachedPackages)]: an array is
    always truthy, a string is truthy unless empty; an absent key reads as
    [null]. *)
Definition truthy (v : value) : bool :=
  match v with
  | VArr _ => true
  | VStr s => negb (String.eqb s "")
  end.

Definition truthy_read (r : option value) : option value :=
  match r with
  | Some v => if truthy v then Some v else None
  | None => None
  end.

(** A cache entry: the value and the instant at which it expires
    ([None]: never). *)
Record entry := Entry { e_value : value; e_expiresAt : option Z }.

(** A row of [package_definition]. *)
Record package_row := PackageRow {
  p_name : string;
  p_isEnabled : bool;
  p_type : string
}.

(** Calls to the external collaborators, in the order they are issued. *)
Inductive call :=
| CGet (key : string)
| CAcquire (key : string) (v : value) (ttlMs : Z)
| CSet (key : string) (v : value) (ttlMs : Z)
| CRelease (key : string) (expected : value)
| CQueryPackages.

(** Detached promises: started, not awaited. *)
Inductive task := BackgroundRevalidate.

Record world := World {
  kv : gmap string entry;              (* the shared key-value store *)
  now : Z;                             (* its clock, in ms *)
  package_definition : string + list package_row;
                                       (* the table, or the message with
                                          which the query is rejected *)
  calls : list call;
  detached : list task;
  logs : list (level * string)
}.

Definition record (c : call) : M world unit :=
  fun w => (Ok tt, World (kv w) (now w) (package_definition w)
                         (calls w ++ [c]) (detached w) (logs w)).

Definition update_kv (f : gmap string entry -> gmap string entry) : M world unit :=
  fun w => (Ok tt, World (f (kv w)) (now w) (package_definition w)
                         (calls w) (detached w) (logs w)).

Definition spawn (t : task) : M world unit :=
  fun w => (Ok tt, World (kv w) (now w) (package_definition w)
                         (calls w) (detached w ++ [t]) (logs w)).

(** The log lines of this service carry a random request id and
    wall-clock timings; the model keeps the level and the fixed text. *)
Definition logger (l : level) (msg : string) : M world unit :=
  fun w => (Ok tt, World (kv w) (now w) (package_definition w)
                         (calls w) (detached w) (logs w ++ [(l, msg)])).

(** *** The distributed key-value primitive *)

Definition live (t : Z) (e : entry) : bool :=
  match e_expiresAt e with
  | None => true
  | Some x => t <? x
  end.

(** What a read of [key] yields in [w]: the value of an unexpired entry. *)
Definition kv_read (key : string) (w : world) : option value :=
  match kv w !! key with
  | Some e => if live (now w) e then Some (e_value e) else None
  | None => None
  end.

Definition expiry (t ttlMs : Z) : option Z :=
  if ttlMs =? 0 then None else Some (t + ttlMs).

(** Modelled from the spec: RedisLockService (redis-lock.service.ts) is
    not among the sources.  [get(key) -> value | absent]. *)
Definition get (key : string) : M world (option value) :=
  record (CGet key) ;;
  fun w => (Ok (kv_read key w), w).

(** Modelled from the spec: [acquire(key, value, ttlMs) -> bool],
    set-if-absent with a TTL, true if this caller won. *)
Definition acquire (key : string) (v : value) (ttlMs : Z) : M world bool :=
  record (CAcquire key v ttlMs) ;;
  fun w =>
    match kv_read key w with
    | Some _ => (Ok false, w)
    | None => (update_kv (insert key (Entry v (Some (now w + ttlMs)))) ;; ret true) w
    end.

(** Modelled from the spec: [set(key, value, ttlMs)], unconditional,
    [ttlMs = 0] meaning no expiry. *)
Definition set (key : string) (v : value) (ttlMs : Z) : M world unit :=
  record (CSet key v ttlMs) ;;
  fun w => update_kv (insert key (Entry v (expiry (now w) ttlMs))) w.

(** Modelled from the spec: [release(key, expectedValue) -> bool],
    compare-and-delete. *)
Definition release (key : string) (expected : value) : M world bool :=
  record (CRelease key expected) ;;
  fun w =>
    match kv_read key w with
    | Some v =>
        if decide (v = expected)
        then (update_kv (delete key) ;; ret true) w
        else (Ok false, w)
    | None => (Ok false, w)
    end.

(** *** The service *)

(** The query of [loadPackages]:
    [where isEnabled = true and type = 'Backend']. *)
Definition enabled_backend (rows : list package_row) : list package_row :=
  filter (fun p => p_isEnabled p = true /\ p_type p = "Backend") rows.

Definition loadPackages : M world (list string) :=
  record CQueryPackages ;;
  fun w =>
    match package_definition w with
    | inl msg => (Throw (JsError msg), w)
    | inr rows => (Ok (map p_name (enabled_backend rows)), w)
    end.

Definition loadAndCachePackages : M world (list string) :=
  logger LLog "Loading packages from database..." ;;
  let* packages := loadPackages in
  logger LLog "Loaded packages" ;;
  (* Update both main cache and stale cache *)
  acquire GLOBAL_PACKAGES_KEY (VArr packages) 300000 ;;  (* 5 minutes *)
  set STALE_PACKAGES_KEY (VArr packages) 0 ;;
  logger LLog "Cached packages" ;;
  ret packages.

Definition reloadPackageCache : M world unit :=
  try_catch
    (logger LLog "Manual package cache reload requested..." ;;
     let* packages := loadPackages in
     logger LLog "Loaded packages" ;;
     set GLOBAL_PACKAGES_KEY (VArr packages) 300000 ;;
     set STALE_PACKAGES_KEY (VArr packages) 0 ;;
     logger LLog "Updated cache" ;;
     logger LLog "Reloaded package cache")
    (fun error =>
       logger LError ("Failed to reload package cache: " +:+ message_of error)).

Definition backgroundRevalidate : M world unit :=
  (* Set revalidating flag in Redis (multi-instance safe) *)
  let* acquired :=
    acquire REVALIDATING_PACKAGES_KEY (VStr "true") 30000 in (* 30s TTL *)
  if negb acquired then
    logger LLog "Another instance is already revalidating - skipping"
    (* return *)
  else
    logger LLog "Starting background revalidation..." ;;
    try_finally
      (try_catch
         (reloadPackageCache ;;
          logger LLog "Background revalidation completed")
         (fun error =>
            logger LError ("Background revalidation failed: " +:+ message_of error)))
      ((* Clear revalidating flag *)
       let* released := release REVALIDATING_PACKAGES_KEY (VStr "true") in
       logger LLog ("Released revalidation lock: " +:+ (if released : bool then "true" else "false"))).

Definition getPackagesWithSWR : M world value :=
  (* Try to get fresh packages from cache *)
  let* cachedPackages := get GLOBAL_PACKAGES_KEY in
  match truthy_read cachedPackages with
  | Some cached =>
      (* a warning is logged when the read took more than 10 ms *)
      ret cached
  | None =>
      logger LLog "Cache EXPIRED - checking stale data..." ;;
      (* Cache miss - check if we have stale data to return immediately *)
      let* stalePackages := get STALE_PACKAGES_KEY in
      let* isRevalidating := get REVALIDATING_PACKAGES_KEY in
      logger LLog "Stale check" ;;
      match truthy_read stalePackages with
      | Some stale =>
          (match truthy_read isRevalidating with
           | None =>
               logger LLog "Starting background revalidation..." ;;
               (* Start background revalidation (non-blocking) *)
               spawn BackgroundRevalidate
           | Some _ =>
               logger LLog "Already revalidating, skip background task"
           end) ;;
          logger LLog "Serving STALE data" ;;
          ret stale
      | None =>
          (* No stale data available - fetch synchronously *)
          logger LWarn "SLOW PATH - No cache, no stale data - fetching from DB..." ;;
          let* packages := loadAndCachePackages in
          logger LWarn "DB fetch completed" ;;
          ret (VArr packages)
      end
  end.

(** A detached [backgroundRevalidate().catch(err => logger.error(...))]:
    whatever it throws is logged, never raised. *)
Definition run_detached (t : task) : M world unit :=
  match t with
  | BackgroundRevalidate =>
      try_catch backgroundRevalidate
        (fun err => logger LError ("Background revalidation error: " +:+ message_of err))
  end.

(** The store holds what this service writes: snapshots and the marker
    ['true'], all truthy. *)
Definition well_typed (w : world) : Prop :=
  map_Forall (fun _ e => truthy (e_value e) = true) (kv w).

Definition outcome_map {A B} (f : A -> B) (o : outcome A) : outcome B :=
  match o with
  | Ok a => Ok (f a)
  | Throw e => Throw e
  end.

(** Two worlds with the same external stores. *)
Definition same_stores (w w' : world) : Prop :=
  kv w' = kv w /\ now w' = now w /\ package_definition w' = package_definition w.

(** The calls of one run of [reloadPackageCache]. *)
Definition reload_calls (w : world) : list call :=
  match package_definition w with
  | inl _ => [CQueryPackages]
  | inr rows =>
      let packages := map p_name (enabled_backend rows) in
      [CQueryPackages;
       CSet GLOBAL_PACKAGES_KEY (VArr packages) 300000;
       CSet STALE_PACKAGES_KEY (VArr packages) 0]
  end.

(** Example worlds. *)
Definition cold_start_db_down : world :=
  World ∅ 0 (inl "connect ECONNREFUSED") [] [] [].

Definition registry : list package_row :=
  [PackageRow "pkgA" true "Backend"; PackageRow "pkgB" true "Backend";
   PackageRow "pkgC" false "Backend"; PackageRow "pkgD" true "App"].

Definition expired_with_stale : world :=
  World {[ GLOBAL_PACKAGES_KEY := Entry (VArr ["old"]) (Some 100);
           STALE_PACKAGES_KEY := Entry (VArr ["pkgA"; "pkgB"]) None ]}
        500 (inr registry) [] [] [].

Definition fresh_old : world :=
  World {[ GLOBAL_PACKAGES_KEY := Entry (VArr ["old"]) (Some 1000);
           STALE_PACKAGES_KEY := Entry (VArr ["old"]) None ]}
        500 (inr registry) [] [] [].

(** Nothing cached yet, the database reachable. *)
Definition cold_start : world := World ∅ 0 (inr registry) [] [] [].

(** The primary entry expired, a stale copy left, the database down. *)
Definition expired_db_down : world :=
  World {[ GLOBAL_PACKAGES_KEY := Entry (VArr ["old"]) (Some 100);
           STALE_PACKAGES_KEY := Entry (VArr ["old"]) None ]}
        500 (inl "connect ECONNREFUSED") [] [] [].

End PackageCache.

(** ** TableHandlerService *)

Module TableHandler.

(** *** Data *)

(** A column, as submitted in a request body or as loaded with its table.
    [c_table] is the back-reference to the owning table. *)
Record column := Column {
  c_id : option Z;
  c_name : string;
  c_type : string;
  c_isPrimary : bool;
  c_table : option Z
}.

(** A relation; [r_sourceTable] is the back-reference to the owning table. *)
Record relation := Relation {
  r_id : option Z;
  r_propertyName : string;
  r_type : string;
  r_inversePropertyName : option string;
  r_targetTable : Z;
  r_sourceTable : option Z
}.

(** An optional property of a request body.  A read of a missing key and
    of a key whose value is [undefined] give the same result, but
    [Object.assign] tells them apart: it copies an own property even when
    its value is [undefined], and passes over a key the object does not
    have. *)
Inductive property (A : Type) :=
| Absent                (* the object has no such key *)
| Undefined             (* the key is there, with the value [undefined] *)
| Defined (a : A).

Arguments Absent {A}.
Arguments Undefined {A}.
Arguments Defined {A} a.

(** The request body ([body: any] / [CreateTableDto]); [columns] and
    [relations] may be [undefined].  The other scalar fields of the body
    travel with [name] and take no part in the control flow. *)
Record table_body := Body {
  b_name : string;
  b_columns : option (list column);
  b_relations_property : property (list relation)
}.

(** [body.relations], as read. *)
Definition b_relations (body : table_body) : option (list relation) :=
  match b_relations_property body with
  | Defined relations => Some relations
  | Undefined | Absent => None
  end.

(** The object handed to [tableRepo.save]: no [id] for a new table.  An
    object saved without a list of relations is saved with none. *)
Record table_draft := Draft {
  d_id : option Z;
  d_name : string;
  d_columns : list column;
  d_relations : list relation
}.

(** A row of [table_definition], loaded with its columns and relations. *)
Record table := Table {
  t_id : Z;
  t_name : string;
  t_columns : list column;
  t_relations : list relation
}.

Record route := Route {
  rt_path : string;
  rt_mainTable : Z;
  rt_isEnabled : bool
}.

(** A row of [information_schema.KEY_COLUMN_USAGE] of the current schema. *)
Record key_column_usage := KeyColumnUsage {
  TABLE_NAME : string;
  CONSTRAINT_NAME : string;
  REFERENCED_TABLE_NAME : option string
}.

(** Calls to the external collaborators (query runner, repositories,
    metadata sync), in the order they are issued. *)
Inductive op :=
| Connect
| Release
| HasTable (name : string)
| FindTableByName (name : string)
| FindTableById (id : Z)
| SaveTable (entity : table_draft)
| FindRouteByPath (path : string)
| SaveRoute (r : route)
| DeleteRoutesByMainTable (id : Z)
| DeleteRelationsByTargetTable (id : Z)
| QueryReferencingFKs (tableName : string)
| QueryOutgoingFKs (tableName : string)
| DropForeignKey (tableName constraintName : string)
| DropTable (name : string)
| RemoveTable (id : Z)
| DeleteColumns (ids : list Z)
| DeleteRelations (ids : list Z)
| SyncAll (entityName type : string).

Record world := World {
  table_definition : list table;
  route_definition : list route;
  physical_tables : list string;
  KEY_COLUMN_USAGE : list key_column_usage;
  next_id : Z;                          (* next generated primary key *)
  faults : nat -> op -> option string;  (* the n-th call fails with a message *)
  ops : list op;
  logs : list (level * string)
}.

Definition with_tables (f : list table -> list table) (w : world) : world :=
  World (f (table_definition w)) (route_definition w) (physical_tables w)
        (KEY_COLUMN_USAGE w) (next_id w) (faults w) (ops w) (logs w).

Definition with_routes (f : list route -> list route) (w : world) : world :=
  World (table_definition w) (f (route_definition w)) (physical_tables w)
        (KEY_COLUMN_USAGE w) (next_id w) (faults w) (ops w) (logs w).

Definition with_physical (f : list string -> list string) (w : world) : world :=
  World (table_definition w) (route_definition w) (f (physical_tables w))
        (KEY_COLUMN_USAGE w) (next_id w) (faults w) (ops w) (logs w).

Definition with_catalog (f : list key_column_usage -> list key_column_usage)
    (w : world) : world :=
  World (table_definition w) (route_definition w) (physical_tables w)
        (f (KEY_COLUMN_USAGE w)) (next_id w) (faults w) (ops w) (logs w).

Definition with_next_id (n : Z) (w : world) : world :=
  World (table_definition w) (route_definition w) (physical_tables w)
        (KEY_COLUMN_USAGE w) n (faults w) (ops w) (logs w).

Definition modify (f : world -> world) : M world unit := fun w => (Ok tt, f w).

Definition read {A} (f : world -> A) : M world A := fun w => (Ok (f w), w).

Definition logger (l : level) (msg : string) : M world unit :=
  fun w => (Ok tt, World (table_definition w) (route_definition w)
                         (physical_tables w) (KEY_COLUMN_USAGE w) (next_id w)
                         (faults w) (ops w) (logs w ++ [(l, msg)])).

(** Issues a call: it is recorded, and it throws when the environment makes
    this call fail. *)
Definition perform (o : op) : M world unit :=
  fun w =>
    let w' := World (table_definition w) (route_definition w)
                    (physical_tables w) (KEY_COLUMN_USAGE w) (next_id w)
                    (faults w) (ops w ++ [o]) (logs w) in
    match faults w (length (ops w)) o with
    | Some msg => (Throw (JsError msg), w')
    | None => (Ok tt, w')
    end.


(** *** The persistent store

    Modelled from the spec: DataSourceService, the repositories and the
    query runner are not among the sources.  The store offers CRUD on the
    metadata rows, existence checks ([hasTable]), catalog introspection and
    raw DDL ([ALTER TABLE ... DROP FOREIGN KEY], [DROP TABLE]).  Every call
    goes through [perform], so any of them can be made to fail. *)

Definition connect : M world unit := perform Connect.

Definition release : M world unit := perform Release.

Definition hasTable (name : string) : M world bool :=
  perform (HasTable name) ;;
  read (fun w => bool_decide (name ∈ physical_tables w)).

Definition findTableByName (name : string) : M world (option table) :=
  perform (FindTableByName name) ;;
  read (fun w => List.find (fun t => String.eqb (t_name t) name) (table_definition w)).

Definition findTableById (id : Z) : M world (option table) :=
  perform (FindTableById id) ;;
  read (fun w => List.find (fun t => t_id t =? id) (table_definition w)).

(** Rows saved through the cascade get a generated key when they have none
    and point back to their table when they name no owner. *)
Fixpoint assign_column_ids (owner next : Z) (cs : list column) : list column * Z :=
  match cs with
  | [] => ([], next)
  | c :: cs' =>
      let '(id, next') :=
        match c_id c with Some i => (i, next) | None => (next, next + 1) end in
      let '(rest, n) := assign_column_ids owner next' cs' in
      (Column (Some id) (c_name c) (c_type c) (c_isPrimary c)
              (Some (default owner (c_table c))) :: rest, n)
  end.

Fixpoint assign_relation_ids (owner next : Z) (rs : list relation) : list relation * Z :=
  match rs with
  | [] => ([], next)
  | r :: rs' =>
      let '(id, next') :=
        match r_id r with Some i => (i, next) | None => (next, next + 1) end in
      let '(rest, n) := assign_relation_ids owner next' rs' in
      (Relation (Some id) (r_propertyName r) (r_type r) (r_inversePropertyName r)
                (r_targetTable r) (Some (default owner (r_sourceTable r))) :: rest, n)
  end.

Definition upsert (t : table) (ts : list table) : list table :=
  if existsb (fun x => t_id x =? t_id t) ts
  then map (fun x => if t_id x =? t_id t then t else x) ts
  else ts ++ [t].

(** [tableRepo.save(entity)]: inserts or updates the row and, by cascade,
    its columns and relations; returns the persisted entity. *)
Definition saveTable (entity : table_draft) : M world table :=
  perform (SaveTable entity) ;;
  fun w =>
    let id := default (next_id w) (d_id entity) in
    let n0 := match d_id entity with Some _ => next_id w | None => next_id w + 1 end in
    let '(cols, n1) := assign_column_ids id n0 (d_columns entity) in
    let '(rels, n2) := assign_relation_ids id n1 (d_relations entity) in
    let t := Table id (d_name entity) cols rels in
    (Ok t, with_next_id n2 (with_tables (upsert t) w)).

Definition findRouteByPath (path : string) : M world (option route) :=
  perform (FindRouteByPath path) ;;
  read (fun w => List.find (fun r => String.eqb (rt_path r) path) (route_definition w)).

Definition saveRoute (r : route) : M world unit :=
  perform (SaveRoute r) ;;
  modify (with_routes (fun rs => rs ++ [r])).

(** [routeDefRepo.delete({ mainTable: { id } })], returning [affected]. *)
Definition deleteRoutesByMainTable (id : Z) : M world nat :=
  perform (DeleteRoutesByMainTable id) ;;
  let* affected :=
    read (fun w => length (filter (fun r => rt_mainTable r = id) (route_definition w))) in
  modify (with_routes (filter (fun r => rt_mainTable r <> id))) ;;
  ret affected.

Definition without_relations_to (id : Z) (t : table) : table :=
  Table (t_id t) (t_name t) (t_columns t)
        (filter (fun r => r_targetTable r <> id) (t_relations t)).

(** [relationDefRepo.delete({ targetTable: { id } })], returning [affected]. *)
Definition deleteRelationsByTargetTable (id : Z) : M world nat :=
  perform (DeleteRelationsByTargetTable id) ;;
  let* affected :=
    read (fun w => length (filter (fun r => r_targetTable r = id)
                                  (concat (map t_relations (table_definition w))))) in
  modify (with_tables (map (without_relations_to id))) ;;
  ret affected.

(** [CONSTRAINT_NAME LIKE 'FK_%']: [_] stands for one character, [%] for
    any sequence. *)
Definition like_FK (s : string) : bool :=
  match s with
  | String a (String b (String _ _)) =>
      Ascii.eqb a (Ascii.ascii_of_nat 70) && Ascii.eqb b (Ascii.ascii_of_nat 75)
  | _ => false
  end.

(** [SELECT DISTINCT TABLE_NAME, CONSTRAINT_NAME FROM KEY_COLUMN_USAGE
     WHERE REFERENCED_TABLE_NAME = tableName AND CONSTRAINT_NAME LIKE 'FK_%'] *)
Definition referencingFKs (tableName : string) (catalog : list key_column_usage)
  : list (string * string) :=
  remove_dups
    (map (fun k => (TABLE_NAME k, CONSTRAINT_NAME k))
       (filter (fun k => REFERENCED_TABLE_NAME k = Some tableName
                         /\ like_FK (CONSTRAINT_NAME k) = true) catalog)).

(** [SELECT CONSTRAINT_NAME FROM KEY_COLUMN_USAGE
     WHERE TABLE_NAME = tableName AND REFERENCED_TABLE_NAME IS NOT NULL] *)
Definition outgoingFKs (tableName : string) (catalog : list key_column_usage)
  : list string :=
  map CONSTRAINT_NAME
    (filter (fun k => TABLE_NAME k = tableName /\ REFERENCED_TABLE_NAME k <> None)
            catalog).

Definition queryReferencingFKs (tableName : string) : M world (list (string * string)) :=
  perform (QueryReferencingFKs tableName) ;;
  read (fun w => referencingFKs tableName (KEY_COLUMN_USAGE w)).

Definition queryOutgoingFKs (tableName : string) : M world (list string) :=
  perform (QueryOutgoingFKs tableName) ;;
  read (fun w => outgoingFKs tableName (KEY_COLUMN_USAGE w)).

(** [ALTER TABLE tableName DROP FOREIGN KEY constraintName] *)
Definition dropForeignKey (tableName constraintName : string) : M world unit :=
  perform (DropForeignKey tableName constraintName) ;;
  modify (with_catalog
            (filter (fun k => ~ (TABLE_NAME k = tableName
                                 /\ CONSTRAINT_NAME k = constraintName)))).

Definition dropTable (name : string) : M world unit :=
  perform (DropTable name) ;;
  modify (with_physical (filter (fun n => n <> name))) ;;
  modify (with_catalog (filter (fun k => TABLE_NAME k <> name))).

(** [tableDefRepo.remove(entity)]: the row goes, and with it, by cascade,
    its columns and its own relations. *)
Definition removeTable (t : table) : M world table :=
  perform (RemoveTable (t_id t)) ;;
  modify (with_tables (filter (fun x => t_id x <> t_id t))) ;;
  ret t.

Definition without_columns (ids : list Z) (t : table) : table :=
  Table (t_id t) (t_name t)
        (filter (fun c => c_id c ∉ (Some <$> ids)) (t_columns t))
        (t_relations t).

Definition without_relations (ids : list Z) (t : table) : table :=
  Table (t_id t) (t_name t) (t_columns t)
        (filter (fun r => r_id r ∉ (Some <$> ids)) (t_relations t)).

(** [columnRepo.delete(ids)] *)
Definition deleteColumns (ids : list Z) : M world unit :=
  perform (DeleteColumns ids) ;;
  modify (with_tables (map (without_columns ids))).

(** [relationRepo.delete(ids)] *)
Definition deleteRelations (ids : list Z) : M world unit :=
  perform (DeleteRelations ids) ;;
  modify (with_tables (map (without_relations ids))).

(** [metadataSyncService.syncAll(...)]: started, not awaited; a rejection of
    its promise is only logged.  The call itself can throw. *)
Definition syncAll (entityName type : string) : M world unit :=
  perform (SyncAll entityName type).

(** [loggingService.error(message, context)] *)
Definition loggingService_error (msg : string) : M world unit :=
  logger LError msg.


(** *** Helpers imported from utils/ *)

Fixpoint first_duplicate (names : list string) : option string :=
  match names with
  | [] => None
  | n :: rest => if bool_decide (n ∈ rest) then Some n else first_duplicate rest
  end.

(** Modelled from the spec: utils/duplicate-field-check is not among the
    sources.  Property names, across columns and relations combined, must
    be unique within a table; a duplicate fails with a [ValidationError]. *)
Definition validateUniquePropertyNames (columns : list column)
    (relations : list relation) : M world unit :=
  match first_duplicate (map c_name columns ++ map r_propertyName relations) with
  | Some n =>
      throw (ValidationException ("Duplicate property name: " +:+ n)
                                 [("propertyName", n)])
  | None => ret tt
  end.

(** Modelled from the spec: utils/get-deleted-ids is not among the sources.
    The set difference, by identity, between the existing and the submitted
    items: the ids of the existing items that no submitted item carries.
    An [undefined] submission submits nothing. *)
Definition getDeletedIds (oldIds newIds : list (option Z)) : list Z :=
  filter (fun i => Some i ∉ newIds) (omap id oldIds).

(** *** The service *)

Definition dquote : string := String (Ascii.ascii_of_nat 34) EmptyString.

(** [!relation.inversePropertyName] is false only for a non-empty string. *)
Definition has_inverse (relation : relation) : bool :=
  match r_inversePropertyName relation with
  | Some s => negb (String.eqb s "")
  | None => false
  end.

(** [relation.type === 'one-to-many' && !relation.inversePropertyName] *)
Definition missing_inverse (relation : relation) : bool :=
  String.eqb (r_type relation) "one-to-many" && negb (has_inverse relation).

Definition validateRelations (relations : option (list relation)) : M world unit :=
  for_of (default [] relations) (fun relation =>
    if missing_inverse relation
    then throw (ValidationException
                  ("One-to-many relation '" +:+ r_propertyName relation
                   +:+ "' must have inversePropertyName")
                  [("relationName", r_propertyName relation);
                   ("relationType", r_type relation);
                   ("missingField", "inversePropertyName")])
    else ret tt).

Definition afterEffect (entityName type : string) : M world unit :=
  try_catch
    ((* Fire & forget syncAll - it will handle publish internally *)
     syncAll entityName type ;;
     logger LLog "✅ Schema sync queued")
    (fun error =>
       loggingService_error "Schema synchronization failed" ;;
       throw (DatabaseException
                ("Schema synchronization failed: " +:+ message_of error)
                "schema-sync")).

Definition strip_table (col : column) : column :=
  Column (c_id col) (c_name col) (c_type col) (c_isPrimary col) None.

Definition strip_sourceTable (rel : relation) : relation :=
  Relation (r_id rel) (r_propertyName rel) (r_type rel)
           (r_inversePropertyName rel) (r_targetTable rel) None.

Definition createTable (body : table_body) : M world table :=
  (* Validate relations before proceeding *)
  validateRelations (b_relations body) ;;
  connect ;;
  try_finally
    (try_catch
       (let* hasTable := hasTable (b_name body) in
        let* existing := findTableByName (b_name body) in
        if hasTable && bool_decide (is_Some existing) then
          throw (JsError ("Table " +:+ b_name body +:+ " already exists!"))
        else
        let* columns :=
          match b_columns body with
          | Some columns => ret columns
          | None => throw (JsError "Cannot read properties of undefined (reading 'find')")
          end in
        match List.find (fun col => String.eqb (c_name col) "id" && c_isPrimary col)
                        columns with
        | None =>
            throw (JsError ("Table must contain a column named " +:+ dquote +:+ "id"
                            +:+ dquote +:+ " with isPrimary = true."))
        | Some idCol =>
            let validTypes := ["int"; "uuid"] in
            if negb (existsb (String.eqb (c_type idCol)) validTypes) then
              throw (JsError ("The primary column " +:+ dquote +:+ "id" +:+ dquote
                              +:+ " must be of type int or uuid."))
            else
            let primaryCount := length (List.filter c_isPrimary columns) in
            if negb (primaryCount =? 1)%nat then
              throw (JsError "Only one column is allowed to have isPrimary = true.")
            else
            validateUniquePropertyNames columns (default [] (b_relations body)) ;;
            let newTable :=
              Draft None (b_name body) (map strip_table columns)
                    (map strip_sourceTable (default [] (b_relations body))) in
            let* result := saveTable newTable in
            afterEffect (t_name result) "create" ;;
            (* Check if route already exists before creating *)
            let* existingRoute := findRouteByPath ("/" +:+ t_name result) in
            match existingRoute with
            | None =>
                saveRoute (Route ("/" +:+ t_name result) (t_id result) true) ;;
                logger LLog ("✅ Route /" +:+ t_name result +:+ " created for table "
                             +:+ t_name result)
            | Some _ =>
                logger LWarn ("Route /" +:+ t_name result
                              +:+ " already exists, skipping route creation")
            end ;;
            ret result
        end)
       (fun error =>
          loggingService_error "Table creation failed" ;;
          if includes "already exists" (message_of error) then
            throw (DuplicateResourceException "Table" "name"
                     (if String.eqb (b_name body) "" then "unknown" else b_name body))
          else
            throw (DatabaseException
                     ("Failed to create table: " +:+ message_of error) "create")))
    release.

Definition with_sourceTable (id : Z) (rel : relation) : relation :=
  Relation (r_id rel) (r_propertyName rel) (r_type rel)
           (r_inversePropertyName rel) (r_targetTable rel) (Some id).

Definition with_table (id : Z) (col : column) : column :=
  Column (c_id col) (c_name col) (c_type col) (c_isPrimary col) (Some id).

Definition updateTable (id : Z) (body : table_body) : M world table :=
  (* Validate relations before proceeding *)
  validateRelations (b_relations body) ;;
  connect ;;
  try_finally
    (try_catch
       (let* found := findTableById id in
        match found with
        | None => throw (JsError ("Table " +:+ b_name body +:+ " does not exist."))
        | Some exists_ =>
            if negb (existsb c_isPrimary (default [] (b_columns body))) then
              throw (JsError "Table must contain an id column with isPrimary = true!")
            else
            validateUniquePropertyNames (default [] (b_columns body))
                                        (default [] (b_relations body)) ;;
            (* Handle deletion of columns and relations *)
            let deletedColumnIds :=
              getDeletedIds (c_id <$> t_columns exists_)
                            (c_id <$> default [] (b_columns body)) in
            let deletedRelationIds :=
              getDeletedIds (r_id <$> t_relations exists_)
                            (r_id <$> default [] (b_relations body)) in
            (if (0 <? length deletedColumnIds)%nat
             then deleteColumns deletedColumnIds else ret tt) ;;
            (if (0 <? length deletedRelationIds)%nat
             then deleteRelations deletedRelationIds else ret tt) ;;
            logger LDebug "Updating table with body:" ;;
            (* Update existing table properties: Object.assign(exists, body),
               then link the new relations and columns to the table.  Without
               a [relations] key in the body, [exists.relations] stays the
               loaded list; with the key there and no list under it, the
               assignment leaves [exists] without relations *)
            let relations :=
              match b_relations_property body with
              | Defined relations => map (with_sourceTable (t_id exists_)) relations
              | Undefined => []
              | Absent => t_relations exists_
              end in
            let columns :=
              match b_columns body with
              | Some columns => map (with_table (t_id exists_)) columns
              | None => t_columns exists_
              end in
            let* result :=
              saveTable (Draft (Some (t_id exists_)) (b_name body) columns relations) in
            afterEffect (t_name result) "update" ;;
            ret result
        end)
       (fun error =>
          loggingService_error "Table update failed" ;;
          if includes "does not exist" (message_of error) then
            throw (ResourceNotFoundException "Table" (pretty id))
          else
            throw (DatabaseException
                     ("Failed to update table: " +:+ message_of error) "update")))
    release.

Definition drop_referencing (fk : string * string) : M world unit :=
  try_catch
    (dropForeignKey (fst fk) (snd fk) ;;
     logger LDebug ("Dropped referencing FK: " +:+ snd fk +:+ " from " +:+ fst fk))
    (fun fkError =>
       logger LWarn ("Failed to drop referencing FK " +:+ snd fk +:+ ": "
                     +:+ message_of fkError)).

Definition drop_outgoing (tableName constraintName : string) : M world unit :=
  try_catch
    (dropForeignKey tableName constraintName ;;
     logger LDebug ("Dropped outgoing FK: " +:+ constraintName))
    (fun fkError =>
       logger LWarn ("Failed to drop outgoing FK " +:+ constraintName +:+ ": "
                     +:+ message_of fkError)).

Definition delete (id : Z) : M world table :=
  try_finally
    (try_catch
       (let* found := findTableById id in
        match found with
        | None =>
            throw (JsError ("Table with id " +:+ pretty id +:+ " does not exist."))
        | Some exists_ =>
            connect ;;
            let tableName := t_name exists_ in
            logger LLog ("🗑️ Processing deletion for table: " +:+ tableName) ;;
            (* 1. Delete routes that point to this table *)
            let* routeDeleted := deleteRoutesByMainTable id in
            (if (0 <? routeDeleted)%nat
             then logger LLog ("✅ Deleted " +:+ pretty routeDeleted
                               +:+ " route(s) pointing to table " +:+ tableName)
             else ret tt) ;;
            (* 2. Delete all relations that reference this table as targetTable *)
            let* targetRelations := deleteRelationsByTargetTable id in
            (if (0 <? targetRelations)%nat
             then logger LLog ("✅ Deleted " +:+ pretty targetRelations
                               +:+ " relations referencing table " +:+ tableName
                               +:+ " as target")
             else ret tt) ;;
            (* 3. Drop all foreign keys referencing this table (from other tables) *)
            let* referencingFKs := queryReferencingFKs tableName in
            for_of referencingFKs drop_referencing ;;
            (* 4. Drop foreign keys FROM this table *)
            let* outgoingFKs := queryOutgoingFKs tableName in
            for_of outgoingFKs (drop_outgoing tableName) ;;
            (* 5. Drop the physical database table *)
            let* hasTable := hasTable tableName in
            (if hasTable : bool
             then dropTable tableName ;;
                  logger LLog ("✅ Database table " +:+ tableName
                               +:+ " dropped successfully")
             else logger LWarn ("Table " +:+ tableName
                                +:+ " does not exist in database")) ;;
            (* 6. Finally, remove metadata record - this will cascade delete
               columns and source relations *)
            let* result := removeTable exists_ in
            logger LLog "✅ Table definition removed with cascaded deletion of columns and relations" ;;
            afterEffect (t_name result) "update" ;;
            ret result
        end)
       (fun error =>
          loggingService_error "Table deletion failed" ;;
          if includes "does not exist" (message_of error) then
            throw (ResourceNotFoundException "Table" (pretty id))
          else
            throw (DatabaseException
                     ("Failed to delete table: " +:+ message_of error) "delete")))
    release.


(** *** Example worlds and requests *)

(** The environment in which no call fails. *)
Definition no_faults : nat -> op -> option string := fun _ _ => None.

Definition quiet (w : world) : Prop := forall n o, faults w n o = None.

(** Only [ALTER TABLE ... DROP FOREIGN KEY] statements may fail. *)
Definition only_drops_fail (w : world) : Prop :=
  forall n o, (forall t c, o <> DropForeignKey t c) -> faults w n o = None.

Definition empty_world : world := World [] [] [] [] 1 no_faults [] [].

Definition orders_body : table_body :=
  Body "orders"
       (Some [Column None "id" "int" true None;
              Column None "total" "int" false None])
       Absent.

(** [orders] exists as a physical table only. *)
Definition physical_only : world := with_physical (fun _ => ["orders"]) empty_world.

(** [orders] has been created: a metadata row and a route, no physical
    table yet. *)
Definition metadata_only : world := snd (createTable orders_body empty_world).

(** [orders] exists as a metadata row and as a physical table. *)
Definition orders_world : world := with_physical (fun _ => ["orders"]) metadata_only.


(** The catalog after a run of best-effort drops that starts as call number
    [n]: a drop that the environment fails leaves the catalog as it is. *)
Fixpoint catalog_after_drops (fails : nat -> op -> option string) (n : nat)
    (fks : list (string * string)) (catalog : list key_column_usage)
  : list key_column_usage :=
  match fks with
  | [] => catalog
  | fk :: rest =>
      catalog_after_drops fails (S n) rest
        match fails n (DropForeignKey (fst fk) (snd fk)) with
        | Some _ => catalog
        | None =>
            filter (fun k => ~ (TABLE_NAME k = fst fk /\ CONSTRAINT_NAME k = snd fk))
                   catalog
        end
  end.

(** Two worlds with the same metadata, physical tables and environment. *)
Definition same_metadata (w w' : world) : Prop :=
  table_definition w' = table_definition w
  /\ route_definition w' = route_definition w
  /\ physical_tables w' = physical_tables w
  /\ next_id w' = next_id w
  /\ faults w' = faults w.

(** The error with which [validateRelations] rejects [relation]. *)
Definition missing_inverse_error (relation : relation) : exn :=
  ValidationException
    ("One-to-many relation '" +:+ r_propertyName relation
     +:+ "' must have inversePropertyName")
    [("relationName", r_propertyName relation);
     ("relationType", r_type relation);
     ("missingField", "inversePropertyName")].


Definition one_to_many_body : table_body :=
  Body "orders"
       (Some [Column None "id" "int" true None])
       (Defined [Relation None "items" "one-to-many" None 2 None]).

Definition two_primary_body : table_body :=
  Body "orders"
       (Some [Column None "id" "int" true None;
              Column None "code" "int" true None])
       Absent.

(** An environment in which the drop of [FK_items_orders] fails. *)
Definition drop_fails : nat -> op -> option string :=
  fun _ o =>
    match o with
    | DropForeignKey _ c =>
        if String.eqb c "FK_items_orders"
        then Some "Lock wait timeout exceeded"
        else None
    | _ => None
    end.

Definition orders_table : table :=
  Table 1 "orders"
        [Column (Some 2) "id" "int" true (Some 1);
         Column (Some 3) "total" "int" false (Some 1)] [].

Definition flaky_world : world :=
  World [orders_table] [Route "/orders" 1 true] ["orders"; "items"]
        [KeyColumnUsage "items" "FK_items_orders" (Some "orders");
         KeyColumnUsage "orders" "FK_orders_users" (Some "users");
         KeyColumnUsage "orders" "PRIMARY" None]
        4 drop_fails [] [].







(** An environment in which the connection cannot be opened. *)
Definition connect_fails : nat -> op -> option string :=
  fun _ o =>
    match o with
    | Connect => Some "connect ECONNREFUSED"
    | _ => None
    end.

Definition unreachable_world : world :=
  World [orders_table] [Route "/orders" 1 true] ["orders"] [] 4 connect_fails [] [].

(** An environment in which the existence check fails with a message of
    the database that happens to contain ['already exists']. *)
Definition has_table_fails : nat -> op -> option string :=
  fun _ o =>
    match o with
    | HasTable _ => Some "Table 'migrations' already exists"
    | _ => None
    end.

Definition confusing_world : world :=
  World [] [] [] [] 1 has_table_fails [] [].

(** An environment in which the query runner cannot be released. *)
Definition release_fails : nat -> op -> option string :=
  fun _ o =>
    match o with
    | Release => Some "release ETIMEDOUT"
    | _ => None
    end.

Definition stuck_world : world :=
  World [orders_table] [Route "/orders" 1 true] ["orders"] [] 4 release_fails [] [].

(** [orders] referenced by a foreign key that carries MySQL's default name
    instead of the [FK_] prefix. *)
Definition legacy_world : world :=
  World [orders_table] [Route "/orders" 1 true] ["orders"; "items"]
        [KeyColumnUsage "items" "items_ibfk_1" (Some "orders");
         KeyColumnUsage "items" "FK_items_orders" (Some "orders")]
        4 no_faults [] [].

(** A computation that leaves the failure pattern of the environment as it
    found it. *)
Definition keeps_faults {A} (m : M world A) : Prop :=
  forall w, faults (snd (m w)) = faults w.

End TableHandler.

(** ** Properties of PackageCacheService *)

Module PackageCacheProofs.

Import PackageCache.

(** *** Reading the store *)

(** Unfolds the monad and the primitives down to reads of the store, then
    folds the projections of the initial world [w] back. *)
Ltac refold w :=
  fold (kv w) (now w) (package_definition w) (calls w) (detached w) (logs w).

Ltac run w :=
  cbv [loadAndCachePackages reloadPackageCache backgroundRevalidate
       getPackagesWithSWR run_detached loadPackages get acquire set release
       logger record update_kv spawn bind ret throw try_catch try_finally
       kv now package_definition calls detached logs];
  refold w.

(** The same for the read path, keeping [loadAndCachePackages] folded. *)
Ltac run_read w :=
  cbv [getPackagesWithSWR get logger record spawn bind ret
       kv now package_definition calls detached logs];
  refold w.

(** Projections of a world built by the primitives; the store itself is
    never unfolded. *)
Ltac proj :=
  cbn [kv now package_definition calls detached logs fst snd outcome_map
       truthy_read negb] in *.

(** Reads in a world that differs from [w] only in its lists of calls,
    logs and detached tasks are reads in [w]. *)
Ltac read_in w key :=
  match goal with
  | |- context [kv_read key ?x] =>
      lazymatch x with
      | w => fail
      | _ => change (kv_read key x) with (kv_read key w)
      end
  end.

Lemma well_typed_read (w : world) (key : string) :
  well_typed w -> truthy_read (kv_read key w) = kv_read key w.
Proof.
  intros Hwt. unfold kv_read.
  destruct (kv w !! key) as [e|] eqn:He; [|reflexivity].
  destruct (live (now w) e); [|reflexivity].
  cbn [truthy_read]. now rewrite (Hwt _ _ He).
Qed.

(** [reloadPackageCache] swallows every failure of its own. *)
Lemma reloadPackageCache_run (w : world) :
  exists w', reloadPackageCache w = (Ok tt, w')
    /\ calls w' = calls w ++ reload_calls w
    /\ now w' = now w
    /\ package_definition w' = package_definition w
    /\ detached w' = detached w
    /\ forall key, key <> GLOBAL_PACKAGES_KEY -> key <> STALE_PACKAGES_KEY ->
         kv w' !! key = kv w !! key.
Proof.
  unfold reload_calls. run w.
  proj. destruct (package_definition w) as [msg|rows] eqn:Hdb.
  - eexists. split; [reflexivity|]. proj. repeat split; auto.
  - eexists. split; [reflexivity|]. proj.
    rewrite <- !app_assoc. repeat split; auto.
    intros key Hg Hs. rewrite !lookup_insert_ne by congruence. reflexivity.
Qed.


Lemma loadAndCachePackages_fails (w : world) (msg : string) :
  package_definition w = inl msg ->
  exists w', loadAndCachePackages w = (Throw (JsError msg), w')
    /\ kv w' = kv w /\ calls w' = calls w ++ [CQueryPackages].
Proof.
  intros Hdb. run w.
  rewrite Hdb. eexists. split; [reflexivity|]. auto.
Qed.

Lemma loadAndCachePackages_succeeds (w : world) (rows : list package_row) :
  package_definition w = inr rows ->
  let packages := map p_name (enabled_backend rows) in
  exists w', loadAndCachePackages w = (Ok packages, w')
    /\ calls w' = calls w ++ [CQueryPackages;
                               CAcquire GLOBAL_PACKAGES_KEY (VArr packages) 300000;
                               CSet STALE_PACKAGES_KEY (VArr packages) 0]
    /\ kv w' = <[STALE_PACKAGES_KEY := Entry (VArr packages) None]>
                 (match kv_read GLOBAL_PACKAGES_KEY w with
                  | Some _ => kv w
                  | None => <[GLOBAL_PACKAGES_KEY :=
                                Entry (VArr packages) (Some (now w + 300000))]> (kv w)
                  end)
    /\ now w' = now w.
Proof.
  intros Hdb packages. run w.
  rewrite Hdb. fold packages.
  read_in w GLOBAL_PACKAGES_KEY.
  destruct (kv_read GLOBAL_PACKAGES_KEY w);
    eexists; (split; [reflexivity|]); proj; rewrite <- !app_assoc; auto.
Qed.

Lemma loadAndCachePackages_detached (w : world) :
  detached (snd (loadAndCachePackages w)) = detached w.
Proof.
  run w. destruct (package_definition w); [reflexivity|].
  destruct (kv_read _ _); reflexivity.
Qed.

(** C1.  For every (well-typed) cache state, [getPackagesWithSWR] follows
    the stale-while-revalidate algorithm: a present primary value is
    returned after the single primary read; otherwise the stale value and
    the revalidating marker are both read, a present stale value is
    returned with a background revalidation detached exactly when the
    marker is absent; and with neither primary nor stale present the result
    is that of a synchronous [loadAndCachePackages] run after the three
    reads. *)
Theorem getPackagesWithSWR_follows_SWR (w : world) :
  well_typed w ->
  match kv_read GLOBAL_PACKAGES_KEY w with
  | Some cached =>
      exists w', getPackagesWithSWR w = (Ok cached, w')
        /\ calls w' = calls w ++ [CGet GLOBAL_PACKAGES_KEY]
        /\ same_stores w w' /\ detached w' = detached w
  | None =>
      match kv_read STALE_PACKAGES_KEY w with
      | Some stale =>
          exists w', getPackagesWithSWR w = (Ok stale, w')
            /\ calls w' = calls w ++ [CGet GLOBAL_PACKAGES_KEY;
                                       CGet STALE_PACKAGES_KEY;
                                       CGet REVALIDATING_PACKAGES_KEY]
            /\ same_stores w w'
            /\ detached w' = detached w ++
                 match kv_read REVALIDATING_PACKAGES_KEY w with
                 | None => [BackgroundRevalidate]
                 | Some _ => []
                 end
      | None =>
          exists w0 w',
            calls w0 = calls w ++ [CGet GLOBAL_PACKAGES_KEY;
                                   CGet STALE_PACKAGES_KEY;
                                   CGet REVALIDATING_PACKAGES_KEY]
            /\ same_stores w w0 /\ detached w0 = detached w
            /\ getPackagesWithSWR w
                = (outcome_map VArr (fst (loadAndCachePackages w0)), w')
            /\ kv w' = kv (snd (loadAndCachePackages w0))
            /\ calls w' = calls (snd (loadAndCachePackages w0))
            /\ detached w' = detached w
      end
  end.
Proof.
  intros Hwt.
  pose proof (well_typed_read w GLOBAL_PACKAGES_KEY Hwt) as Hg.
  pose proof (well_typed_read w STALE_PACKAGES_KEY Hwt) as Hs.
  pose proof (well_typed_read w REVALIDATING_PACKAGES_KEY Hwt) as Hr.
  run_read w.
  read_in w GLOBAL_PACKAGES_KEY. rewrite Hg.
  destruct (kv_read GLOBAL_PACKAGES_KEY w) as [cached|].
  { eexists. split; [reflexivity|]. proj. repeat split; reflexivity. }
  read_in w STALE_PACKAGES_KEY. rewrite Hs.
  destruct (kv_read STALE_PACKAGES_KEY w) as [stale|].
  { read_in w REVALIDATING_PACKAGES_KEY. rewrite Hr.
    destruct (kv_read REVALIDATING_PACKAGES_KEY w);
      eexists; (split; [reflexivity|]); proj; rewrite <- ?app_assoc;
      repeat split; auto using app_nil_r. }
  match goal with |- context [loadAndCachePackages ?x] =>
    exists x; pose proof (loadAndCachePackages_detached x) as Hd;
    destruct (loadAndCachePackages x) as [[packages|e] w'] end;
    eexists; proj; rewrite <- !app_assoc; repeat split; auto.
Qed.

Lemma expired_with_stale_well_typed : well_typed expired_with_stale.
Proof. apply (bool_decide_unpack _). vm_compute. reflexivity. Qed.

Lemma getPackagesWithSWR_follows_SWR_witness :
  exists w',
    getPackagesWithSWR expired_with_stale = (Ok (VArr ["pkgA"; "pkgB"]), w')
    /\ calls w' = [CGet GLOBAL_PACKAGES_KEY; CGet STALE_PACKAGES_KEY;
                   CGet REVALIDATING_PACKAGES_KEY]
    /\ same_stores expired_with_stale w'
    /\ detached w' = [BackgroundRevalidate].
Proof.
  exact (getPackagesWithSWR_follows_SWR expired_with_stale
           expired_with_stale_well_typed).
Defined.


(** The marker this service has just written is the one it reads back. *)
Lemma kv_read_marker (m : gmap string entry) (t : Z)
    (pd : string + list package_row) (c : list call) (d : list task)
    (l : list (level * string)) :
  m !! REVALIDATING_PACKAGES_KEY = Some (Entry (VStr "true") (Some (t + 30000))) ->
  kv_read REVALIDATING_PACKAGES_KEY (World m t pd c d l) = Some (VStr "true").
Proof.
  intros Hm. unfold kv_read, live. proj. rewrite Hm. cbn [e_expiresAt e_value].
  destruct (Z.ltb_spec t (t + 30000)); [reflexivity | lia].
Qed.

Lemma backgroundRevalidate_returns (w : world) :
  exists w', backgroundRevalidate w = (Ok tt, w').
Proof.
  run w. read_in w REVALIDATING_PACKAGES_KEY.
  destruct (kv_read REVALIDATING_PACKAGES_KEY w); simpl; [eauto|].
  destruct (package_definition w); simpl.
  - erewrite kv_read_marker by (simpl; apply lookup_insert_eq).
    rewrite decide_True by reflexivity. simpl. eauto.
  - erewrite kv_read_marker
      by (simpl; rewrite !lookup_insert_ne by discriminate; apply lookup_insert_eq).
    rewrite decide_True by reflexivity. simpl. eauto.
Qed.

(** C4, as stated, fails: on a cold start (no primary, no stale) with the
    database unreachable the caller of [getPackagesWithSWR] receives the
    error of the load. *)
Lemma getPackagesWithSWR_cold_start_throws :
  kv_read GLOBAL_PACKAGES_KEY cold_start_db_down = None
  /\ kv_read STALE_PACKAGES_KEY cold_start_db_down = None
  /\ fst (getPackagesWithSWR cold_start_db_down)
     = Throw (JsError "connect ECONNREFUSED").
Proof. repeat split; vm_compute; reflexivity. Qed.

(** C4 (amended).  [getPackagesWithSWR] raises only on a cold start whose
    load fails: whenever it throws, neither primary nor stale was present
    and the database query was rejected, and the error is that rejection;
    conversely such a cold start does throw it.  On every other path a
    snapshot is returned, and a detached background revalidation always
    completes without raising. *)
Theorem getPackagesWithSWR_raises_only_on_failed_cold_load (w : world) :
  well_typed w ->
  (forall e, fst (getPackagesWithSWR w) = Throw e ->
     kv_read GLOBAL_PACKAGES_KEY w = None
     /\ kv_read STALE_PACKAGES_KEY w = None
     /\ exists msg, package_definition w = inl msg /\ e = JsError msg)
  /\ (forall msg,
        kv_read GLOBAL_PACKAGES_KEY w = None ->
        kv_read STALE_PACKAGES_KEY w = None ->
        package_definition w = inl msg ->
        fst (getPackagesWithSWR w) = Throw (JsError msg))
  /\ (forall t, exists w', run_detached t w = (Ok tt, w')).
Proof.
  intros Hwt.
  pose proof (well_typed_read w GLOBAL_PACKAGES_KEY Hwt) as Hg.
  pose proof (well_typed_read w STALE_PACKAGES_KEY Hwt) as Hs.
  assert (Hcold : kv_read GLOBAL_PACKAGES_KEY w = None ->
                  kv_read STALE_PACKAGES_KEY w = None ->
                  exists w0, package_definition w0 = package_definition w /\
                    fst (getPackagesWithSWR w)
                    = outcome_map VArr (fst (loadAndCachePackages w0))).
  { intros Hg0 Hs0.
    run_read w.
    read_in w GLOBAL_PACKAGES_KEY. rewrite Hg0. cbn [truthy_read].
    read_in w STALE_PACKAGES_KEY. rewrite Hs0. cbn [truthy_read].
    match goal with |- context [loadAndCachePackages ?x] =>
      exists x; split; [reflexivity|];
      destruct (loadAndCachePackages x) as [[packages|e] w'] end; reflexivity. }
  split; [|split].
  - intros e He.
    destruct (kv_read GLOBAL_PACKAGES_KEY w) as [cached|] eqn:Hg0.
    { revert He. run_read w.
      read_in w GLOBAL_PACKAGES_KEY. rewrite Hg0, Hg. discriminate. }
    destruct (kv_read STALE_PACKAGES_KEY w) as [stale|] eqn:Hs0.
    { revert He. run_read w.
      read_in w GLOBAL_PACKAGES_KEY. rewrite Hg0. cbn [truthy_read].
      read_in w STALE_PACKAGES_KEY. rewrite Hs0, Hs.
      destruct (truthy_read (kv_read REVALIDATING_PACKAGES_KEY _)); cbn;
        discriminate. }
    destruct (Hcold eq_refl eq_refl) as (w0 & Hdb & Hrun).
    rewrite Hrun in He. split; [reflexivity|]. split; [reflexivity|].
    destruct (package_definition w) as [msg|rows] eqn:Hpd.
    + destruct (loadAndCachePackages_fails w0 msg Hdb) as (w' & Hl & _).
      rewrite Hl in He. simpl in He. exists msg. split; congruence.
    + destruct (loadAndCachePackages_succeeds w0 rows Hdb) as (w' & Hl & _).
      rewrite Hl in He. discriminate.
  - intros msg Hg0 Hs0 Hpd.
    destruct (Hcold Hg0 Hs0) as (w0 & Hdb & Hrun). rewrite Hrun.
    rewrite Hpd in Hdb.
    destruct (loadAndCachePackages_fails w0 msg Hdb) as (w' & Hl & _).
    now rewrite Hl.
  - intros []. unfold run_detached, try_catch.
    destruct (backgroundRevalidate_returns w) as (w' & ->). eauto.
Qed.

Lemma cold_start_db_down_well_typed : well_typed cold_start_db_down.
Proof. apply (bool_decide_unpack _). vm_compute. reflexivity. Qed.

Lemma getPackagesWithSWR_raises_only_on_failed_cold_load_witness :
  fst (getPackagesWithSWR cold_start_db_down)
  = Throw (JsError "connect ECONNREFUSED").
Proof.
  apply (getPackagesWithSWR_raises_only_on_failed_cold_load
           cold_start_db_down cold_start_db_down_well_typed);
    reflexivity.
Defined.


(** C5.  Every run of [backgroundRevalidate] returns normally and is one of
    two shapes.  If the marker is present, the only call is the failed
    [acquire] and the store is untouched: no reload, no release.  Otherwise
    the marker is acquired with a 30 000 ms TTL and the reload is performed
    on the store that holds the marker: its calls follow (the query alone
    when it is rejected, the query and the two writes when it succeeds) and
    the store ends as [reloadPackageCache] leaves it, less the marker, that
    is with both keys overwritten by the fresh snapshot when the query
    succeeds and with nothing else changed when it fails; the last call is
    the compare-and-delete [release] of the marker, after which the marker
    is gone. *)
Theorem backgroundRevalidate_acquires_reloads_releases (w : world) :
  exists w', backgroundRevalidate w = (Ok tt, w')
    /\ match kv_read REVALIDATING_PACKAGES_KEY w with
       | Some _ =>
           calls w' = calls w ++ [CAcquire REVALIDATING_PACKAGES_KEY (VStr "true") 30000]
           /\ kv w' = kv w
       | None =>
           let held := snd (acquire REVALIDATING_PACKAGES_KEY (VStr "true") 30000 w) in
           kv held !! REVALIDATING_PACKAGES_KEY
           = Some (Entry (VStr "true") (Some (now w + 30000)))
           /\ calls w' = calls w
                ++ [CAcquire REVALIDATING_PACKAGES_KEY (VStr "true") 30000]
                ++ reload_calls w
                ++ [CRelease REVALIDATING_PACKAGES_KEY (VStr "true")]
           /\ kv w' !! REVALIDATING_PACKAGES_KEY = None
           /\ kv w' = delete REVALIDATING_PACKAGES_KEY
                             (kv (snd (reloadPackageCache held)))
           /\ match package_definition w with
              | inl msg =>
                  kv w' = delete REVALIDATING_PACKAGES_KEY (kv w)
                  /\ (LError, "Failed to reload package cache: " +:+ msg) ∈ logs w'
              | inr rows =>
                  let packages := map p_name (enabled_backend rows) in
                  kv w'
                  = <[STALE_PACKAGES_KEY := Entry (VArr packages) None]>
                      (<[GLOBAL_PACKAGES_KEY :=
                           Entry (VArr packages) (Some (now w + 300000))]>
                         (delete REVALIDATING_PACKAGES_KEY (kv w)))
              end
       end.
Proof.
  unfold reload_calls. run w. read_in w REVALIDATING_PACKAGES_KEY.
  destruct (kv_read REVALIDATING_PACKAGES_KEY w); simpl.
  { eexists. split; [reflexivity|]. simpl. auto. }
  destruct (package_definition w); simpl.
  - erewrite kv_read_marker by (simpl; apply lookup_insert_eq).
    rewrite decide_True by reflexivity. simpl.
    eexists. split; [reflexivity|]. simpl.
    rewrite lookup_insert_eq, lookup_delete_eq, <- !app_assoc, delete_insert_eq.
    repeat split; auto.
    rewrite !elem_of_app. right. right. right. left. left.
  - erewrite kv_read_marker
      by (simpl; rewrite !lookup_insert_ne by discriminate; apply lookup_insert_eq).
    rewrite decide_True by reflexivity. simpl.
    eexists. split; [reflexivity|]. simpl.
    rewrite lookup_insert_eq, lookup_delete_eq, <- !app_assoc.
    repeat split; auto.
    rewrite !(delete_insert_ne _ REVALIDATING_PACKAGES_KEY) by discriminate.
    now rewrite delete_insert_eq.
Qed.

(** C10.  [loadAndCachePackages] writes the primary key with [acquire]
    (set-if-absent): when the primary entry is present and unexpired and the
    query succeeds, the entry is left as it was, the stale key is
    overwritten with the fresh snapshot (no expiry), and the fresh snapshot
    is returned; a primary read afterwards still yields the old value, so
    it differs from the returned snapshot whenever the old value does. *)
Theorem loadAndCachePackages_keeps_present_primary
    (w : world) (e : entry) (rows : list package_row) :
  kv w !! GLOBAL_PACKAGES_KEY = Some e ->
  live (now w) e = true ->
  package_definition w = inr rows ->
  let packages := map p_name (enabled_backend rows) in
  exists w', loadAndCachePackages w = (Ok packages, w')
    /\ In (CAcquire GLOBAL_PACKAGES_KEY (VArr packages) 300000) (calls w')
    /\ kv w' !! GLOBAL_PACKAGES_KEY = Some e
    /\ kv w' !! STALE_PACKAGES_KEY = Some (Entry (VArr packages) None)
    /\ kv_read GLOBAL_PACKAGES_KEY w' = Some (e_value e)
    /\ (e_value e <> VArr packages ->
        kv_read GLOBAL_PACKAGES_KEY w' <> Some (VArr packages)).
Proof.
  intros He Hlive Hdb packages.
  destruct (loadAndCachePackages_succeeds w rows Hdb) as (w' & Hrun & Hc & Hkv & Hn).
  fold packages in Hrun, Hc, Hkv.
  assert (Hread : kv_read GLOBAL_PACKAGES_KEY w = Some (e_value e)).
  { unfold kv_read. now rewrite He, Hlive. }
  rewrite Hread in Hkv.
  assert (Hg : kv w' !! GLOBAL_PACKAGES_KEY = Some e).
  { rewrite Hkv, lookup_insert_ne by discriminate. exact He. }
  assert (Hread' : kv_read GLOBAL_PACKAGES_KEY w' = Some (e_value e)).
  { unfold kv_read. now rewrite Hg, Hn, Hlive. }
  exists w'. split; [exact Hrun|].
  split; [rewrite Hc; apply in_or_app; right; simpl; auto|].
  split; [exact Hg|].
  split; [rewrite Hkv; apply lookup_insert_eq|].
  split; [exact Hread'|].
  rewrite Hread'. congruence.
Qed.

Lemma loadAndCachePackages_keeps_present_primary_witness :
  exists w', loadAndCachePackages fresh_old = (Ok ["pkgA"; "pkgB"], w')
    /\ In (CAcquire GLOBAL_PACKAGES_KEY (VArr ["pkgA"; "pkgB"]) 300000) (calls w')
    /\ kv w' !! GLOBAL_PACKAGES_KEY = Some (Entry (VArr ["old"]) (Some 1000))
    /\ kv w' !! STALE_PACKAGES_KEY = Some (Entry (VArr ["pkgA"; "pkgB"]) None)
    /\ kv_read GLOBAL_PACKAGES_KEY w' = Some (VArr ["old"])
    /\ (VArr ["old"] <> VArr ["pkgA"; "pkgB"] ->
        kv_read GLOBAL_PACKAGES_KEY w' <> Some (VArr ["pkgA"; "pkgB"])).
Proof.
  apply (loadAndCachePackages_keeps_present_primary fresh_old
           (Entry (VArr ["old"]) (Some 1000)) registry);
    reflexivity.
Defined.

(** *** Further properties of the cache service *)

Lemma kv_read_fresh (m : gmap string entry) (t ttl : Z)
    (pd : string + list package_row) (c : list call) (d : list task)
    (l : list (level * string)) (key : string) (v : value) :
  0 < ttl ->
  m !! key = Some (Entry v (Some (t + ttl))) ->
  kv_read key (World m t pd c d l) = Some v.
Proof.
  intros Httl Hm. unfold kv_read, live. cbn [kv now]. rewrite Hm.
  cbn [e_expiresAt e_value].
  destruct (Z.ltb_spec t (t + ttl)); [reflexivity | lia].
Qed.

Lemma kv_read_forever (m : gmap string entry) (t : Z)
    (pd : string + list package_row) (c : list call) (d : list task)
    (l : list (level * string)) (key : string) (v : value) :
  m !! key = Some (Entry v None) ->
  kv_read key (World m t pd c d l) = Some v.
Proof. intros Hm. unfold kv_read, live. cbn [kv now]. now rewrite Hm. Qed.

(** X1.  [reloadPackageCache] never throws.  When the query is rejected it
    writes nothing: the store is as it was and the query is the only call.
    When the query succeeds it overwrites the primary key unconditionally
    (expiry: now + 300 000 ms) and the stale key (no expiry), so that both
    then read as the fresh snapshot, whatever they held before. *)
Theorem reloadPackageCache_overwrites_or_leaves (w : world) :
  exists w', reloadPackageCache w = (Ok tt, w')
    /\ match package_definition w with
       | inl _ => kv w' = kv w /\ calls w' = calls w ++ [CQueryPackages]
       | inr rows =>
           let packages := map p_name (enabled_backend rows) in
           kv w' = <[STALE_PACKAGES_KEY := Entry (VArr packages) None]>
                     (<[GLOBAL_PACKAGES_KEY :=
                          Entry (VArr packages) (Some (now w + 300000))]> (kv w))
           /\ kv_read GLOBAL_PACKAGES_KEY w' = Some (VArr packages)
           /\ kv_read STALE_PACKAGES_KEY w' = Some (VArr packages)
       end.
Proof.
  run w. destruct (package_definition w) as [msg|rows].
  - eexists. split; [reflexivity|]. cbn [kv calls]. auto.
  - eexists. split; [reflexivity|]. cbv zeta. split; [reflexivity|]. split.
    + apply (kv_read_fresh _ _ 300000); [lia|].
      rewrite lookup_insert_ne by discriminate. apply lookup_insert_eq.
    + apply kv_read_forever. apply lookup_insert_eq.
Qed.

(** X2.  [loadAndCachePackages] is all or nothing on the cache: when the
    query is rejected it throws that error before any cache call, leaving
    the store as it was; when the query succeeds and the primary key is
    absent or expired, it leaves both keys reading as the fresh snapshot,
    the primary one expiring 300 000 ms from now and the stale one never. *)
Theorem loadAndCachePackages_all_or_nothing (w : world) :
  match package_definition w with
  | inl msg =>
      exists w', loadAndCachePackages w = (Throw (JsError msg), w')
        /\ kv w' = kv w /\ calls w' = calls w ++ [CQueryPackages]
  | inr rows =>
      let packages := map p_name (enabled_backend rows) in
      kv_read GLOBAL_PACKAGES_KEY w = None ->
      exists w', loadAndCachePackages w = (Ok packages, w')
        /\ kv w' !! GLOBAL_PACKAGES_KEY
           = Some (Entry (VArr packages) (Some (now w + 300000)))
        /\ kv w' !! STALE_PACKAGES_KEY = Some (Entry (VArr packages) None)
        /\ kv_read GLOBAL_PACKAGES_KEY w' = Some (VArr packages)
        /\ kv_read STALE_PACKAGES_KEY w' = Some (VArr packages)
  end.
Proof.
  destruct (package_definition w) as [msg|rows] eqn:Hdb.
  - exact (loadAndCachePackages_fails w msg Hdb).
  - intros packages Hcold.
    destruct (loadAndCachePackages_succeeds w rows Hdb) as (w' & Hrun & _ & Hkv & Hnow).
    fold packages in Hrun, Hkv. rewrite Hcold in Hkv.
    assert (Hg : kv w' !! GLOBAL_PACKAGES_KEY
                 = Some (Entry (VArr packages) (Some (now w + 300000)))).
    { rewrite Hkv, lookup_insert_ne by discriminate. apply lookup_insert_eq. }
    assert (Hs : kv w' !! STALE_PACKAGES_KEY = Some (Entry (VArr packages) None)).
    { rewrite Hkv. apply lookup_insert_eq. }
    exists w'. split; [exact Hrun|]. split; [exact Hg|]. split; [exact Hs|].
    unfold kv_read, live. rewrite Hg, Hs, Hnow. cbn [e_expiresAt e_value].
    destruct (Z.ltb_spec (now w) (now w + 300000)); [auto | lia].
Qed.

Lemma loadAndCachePackages_all_or_nothing_witness :
  exists w', loadAndCachePackages cold_start = (Ok ["pkgA"; "pkgB"], w')
    /\ kv w' !! GLOBAL_PACKAGES_KEY
       = Some (Entry (VArr ["pkgA"; "pkgB"]) (Some 300000))
    /\ kv w' !! STALE_PACKAGES_KEY = Some (Entry (VArr ["pkgA"; "pkgB"]) None)
    /\ kv_read GLOBAL_PACKAGES_KEY w' = Some (VArr ["pkgA"; "pkgB"])
    /\ kv_read STALE_PACKAGES_KEY w' = Some (VArr ["pkgA"; "pkgB"]).
Proof.
  apply (loadAndCachePackages_all_or_nothing cold_start). reflexivity.
Defined.

(** X3.  A read on a cold start (neither primary nor stale present) with
    the database reachable returns the freshly loaded names, detaches no
    task and populates both keys; the next read is then a primary hit: it
    returns the same snapshot after the single primary read, without
    touching the database. *)
Theorem cold_start_read_populates_the_cache (w : world) (rows : list package_row) :
  kv_read GLOBAL_PACKAGES_KEY w = None ->
  kv_read STALE_PACKAGES_KEY w = None ->
  package_definition w = inr rows ->
  let packages := map p_name (enabled_backend rows) in
  exists w' w'',
    getPackagesWithSWR w = (Ok (VArr packages), w')
    /\ calls w' = calls w ++ [CGet GLOBAL_PACKAGES_KEY; CGet STALE_PACKAGES_KEY;
                              CGet REVALIDATING_PACKAGES_KEY; CQueryPackages;
                              CAcquire GLOBAL_PACKAGES_KEY (VArr packages) 300000;
                              CSet STALE_PACKAGES_KEY (VArr packages) 0]
    /\ detached w' = detached w
    /\ kv_read GLOBAL_PACKAGES_KEY w' = Some (VArr packages)
    /\ kv_read STALE_PACKAGES_KEY w' = Some (VArr packages)
    /\ getPackagesWithSWR w' = (Ok (VArr packages), w'')
    /\ calls w'' = calls w' ++ [CGet GLOBAL_PACKAGES_KEY].
Proof.
  intros Hg Hs Hdb packages.
  assert (Hfirst : exists w',
    getPackagesWithSWR w = (Ok (VArr packages), w')
    /\ calls w' = calls w ++ [CGet GLOBAL_PACKAGES_KEY; CGet STALE_PACKAGES_KEY;
                              CGet REVALIDATING_PACKAGES_KEY; CQueryPackages;
                              CAcquire GLOBAL_PACKAGES_KEY (VArr packages) 300000;
                              CSet STALE_PACKAGES_KEY (VArr packages) 0]
    /\ detached w' = detached w
    /\ kv_read GLOBAL_PACKAGES_KEY w' = Some (VArr packages)
    /\ kv_read STALE_PACKAGES_KEY w' = Some (VArr packages)).
  { run w. read_in w GLOBAL_PACKAGES_KEY. rewrite Hg. cbn [truthy_read].
    read_in w STALE_PACKAGES_KEY. rewrite Hs. cbn [truthy_read].
    rewrite Hdb. fold packages.
    read_in w GLOBAL_PACKAGES_KEY. rewrite Hg.
    eexists. split; [reflexivity|]. cbn [calls detached].
    rewrite <- !app_assoc. split; [reflexivity|]. split; [reflexivity|]. split.
    - apply (kv_read_fresh _ _ 300000); [lia|].
      rewrite lookup_insert_ne by discriminate. apply lookup_insert_eq.
    - apply kv_read_forever. apply lookup_insert_eq. }
  destruct Hfirst as (w' & Hrun & Hcalls & Hdet & Hg' & Hs').
  exists w'. eexists. split; [exact Hrun|]. split; [exact Hcalls|].
  split; [exact Hdet|]. split; [exact Hg'|]. split; [exact Hs'|].
  run_read w'. read_in w' GLOBAL_PACKAGES_KEY. rewrite Hg'. cbn [truthy_read truthy].
  split; reflexivity.
Qed.

Lemma cold_start_read_populates_the_cache_witness :
  exists w' w'',
    getPackagesWithSWR cold_start = (Ok (VArr ["pkgA"; "pkgB"]), w')
    /\ calls w' = calls cold_start
                  ++ [CGet GLOBAL_PACKAGES_KEY; CGet STALE_PACKAGES_KEY;
                      CGet REVALIDATING_PACKAGES_KEY; CQueryPackages;
                      CAcquire GLOBAL_PACKAGES_KEY (VArr ["pkgA"; "pkgB"]) 300000;
                      CSet STALE_PACKAGES_KEY (VArr ["pkgA"; "pkgB"]) 0]
    /\ detached w' = detached cold_start
    /\ kv_read GLOBAL_PACKAGES_KEY w' = Some (VArr ["pkgA"; "pkgB"])
    /\ kv_read STALE_PACKAGES_KEY w' = Some (VArr ["pkgA"; "pkgB"])
    /\ getPackagesWithSWR w' = (Ok (VArr ["pkgA"; "pkgB"]), w'')
    /\ calls w'' = calls w' ++ [CGet GLOBAL_PACKAGES_KEY].
Proof.
  apply (cold_start_read_populates_the_cache cold_start registry); reflexivity.
Defined.

(** Case analysis on what the reads of a run yield. *)
Ltac branches w :=
  repeat (cbv beta iota delta [negb];
          match goal with
          | |- context [match truthy_read ?o with _ => _ end] =>
              destruct (truthy_read o)
          | |- context [match kv_read ?k ?x with _ => _ end] =>
              destruct (kv_read k x)
          | |- context [match package_definition w with _ => _ end] =>
              destruct (package_definition w)
          | |- context [if decide ?P then _ else _] => destruct (decide P)
          end).

Ltac kept :=
  unfold well_typed; cbn [snd kv];
  repeat first [ assumption
               | apply map_Forall_insert_2; [reflexivity|]
               | apply map_Forall_delete ].

(** X4.  The service keeps the store well typed: if every stored value is
    truthy (a snapshot or a non-empty marker), it still is after a read,
    after a load, after a reload and after a detached revalidation,
    whichever way these runs go. *)
Theorem well_typed_is_kept (w : world) :
  well_typed w ->
  well_typed (snd (getPackagesWithSWR w))
  /\ well_typed (snd (loadAndCachePackages w))
  /\ well_typed (snd (reloadPackageCache w))
  /\ forall t, well_typed (snd (run_detached t w)).
Proof.
  intros Hwt. unfold well_typed in Hwt.
  split; [|split; [|split; [|intros []]]]; run w; branches w; kept.
Qed.

Lemma well_typed_is_kept_witness :
  well_typed (snd (getPackagesWithSWR expired_with_stale))
  /\ well_typed (snd (loadAndCachePackages expired_with_stale))
  /\ well_typed (snd (reloadPackageCache expired_with_stale))
  /\ forall t, well_typed (snd (run_detached t expired_with_stale)).
Proof.
  exact (well_typed_is_kept expired_with_stale expired_with_stale_well_typed).
Defined.

Lemma kv_read_deleted (m : gmap string entry) (t : Z)
    (pd : string + list package_row) (c : list call) (d : list task)
    (l : list (level * string)) (key : string) :
  kv_read key (World (delete key m) t pd c d l) = None.
Proof. unfold kv_read. cbn [kv]. now rewrite lookup_delete_eq. Qed.

(** X5.  A background revalidation that finds the marker absent and the
    database reachable refreshes the cache: it returns normally, both the
    primary and the stale key then read as the fresh snapshot, and the
    marker is absent again. *)
Theorem backgroundRevalidate_refreshes (w : world) (rows : list package_row) :
  kv_read REVALIDATING_PACKAGES_KEY w = None ->
  package_definition w = inr rows ->
  let packages := map p_name (enabled_backend rows) in
  exists w',
    run_detached BackgroundRevalidate w = (Ok tt, w')
    /\ kv_read GLOBAL_PACKAGES_KEY w' = Some (VArr packages)
    /\ kv_read STALE_PACKAGES_KEY w' = Some (VArr packages)
    /\ kv_read REVALIDATING_PACKAGES_KEY w' = None
    /\ detached w' = detached w.
Proof.
  intros Hr Hdb packages. run w.
  read_in w REVALIDATING_PACKAGES_KEY. rewrite Hr.
  cbv beta iota delta [negb]. refold w. rewrite Hdb. cbv beta iota.
  fold packages.
  erewrite kv_read_marker
    by (cbn [kv]; rewrite !lookup_insert_ne by discriminate; apply lookup_insert_eq).
  rewrite decide_True by reflexivity. cbv beta iota.
  eexists. split; [reflexivity|]. cbn [detached].
  split; [|split; [|split; [apply kv_read_deleted | reflexivity]]].
  - apply (kv_read_fresh _ _ 300000); [lia|].
    rewrite lookup_delete_ne, lookup_insert_ne by discriminate.
    apply lookup_insert_eq.
  - apply kv_read_forever.
    rewrite lookup_delete_ne by discriminate. apply lookup_insert_eq.
Qed.

Lemma backgroundRevalidate_refreshes_witness :
  exists w',
    run_detached BackgroundRevalidate expired_with_stale = (Ok tt, w')
    /\ kv_read GLOBAL_PACKAGES_KEY w' = Some (VArr ["pkgA"; "pkgB"])
    /\ kv_read STALE_PACKAGES_KEY w' = Some (VArr ["pkgA"; "pkgB"])
    /\ kv_read REVALIDATING_PACKAGES_KEY w' = None
    /\ detached w' = detached expired_with_stale.
Proof.
  apply (backgroundRevalidate_refreshes expired_with_stale registry); reflexivity.
Defined.

(** X6.  A background revalidation whose reload fails keeps what the cache
    held: it returns normally, the failure is logged, the primary and the
    stale key read as before, and the marker is released, so that nothing
    stands in the way of the next attempt. *)
Theorem failed_revalidation_keeps_the_cache (w : world) (msg : string) :
  kv_read REVALIDATING_PACKAGES_KEY w = None ->
  package_definition w = inl msg ->
  exists w',
    run_detached BackgroundRevalidate w = (Ok tt, w')
    /\ kv w' = delete REVALIDATING_PACKAGES_KEY (kv w)
    /\ kv_read GLOBAL_PACKAGES_KEY w' = kv_read GLOBAL_PACKAGES_KEY w
    /\ kv_read STALE_PACKAGES_KEY w' = kv_read STALE_PACKAGES_KEY w
    /\ kv_read REVALIDATING_PACKAGES_KEY w' = None
    /\ (LError, "Failed to reload package cache: " +:+ msg) ∈ logs w'.
Proof.
  intros Hr Hdb. run w.
  read_in w REVALIDATING_PACKAGES_KEY. rewrite Hr.
  cbv beta iota delta [negb]. refold w. rewrite Hdb. cbv beta iota.
  erewrite kv_read_marker by (cbn [kv]; apply lookup_insert_eq).
  rewrite decide_True by reflexivity. cbv beta iota.
  eexists. split; [reflexivity|]. cbn [kv logs].
  split; [apply delete_insert_eq|].
  split; [unfold kv_read; cbn [kv now];
          now rewrite lookup_delete_ne, lookup_insert_ne by discriminate|].
  split; [unfold kv_read; cbn [kv now];
          now rewrite lookup_delete_ne, lookup_insert_ne by discriminate|].
  split; [apply kv_read_deleted|].
  rewrite !elem_of_app, !list_elem_of_singleton. tauto.
Qed.

Lemma failed_revalidation_keeps_the_cache_witness :
  exists w',
    run_detached BackgroundRevalidate expired_db_down = (Ok tt, w')
    /\ kv w' = delete REVALIDATING_PACKAGES_KEY (kv expired_db_down)
    /\ kv_read GLOBAL_PACKAGES_KEY w' = kv_read GLOBAL_PACKAGES_KEY expired_db_down
    /\ kv_read STALE_PACKAGES_KEY w' = kv_read STALE_PACKAGES_KEY expired_db_down
    /\ kv_read REVALIDATING_PACKAGES_KEY w' = None
    /\ (LError, "Failed to reload package cache: " +:+ "connect ECONNREFUSED") ∈ logs w'.
Proof.
  apply (failed_revalidation_keeps_the_cache expired_db_down); reflexivity.
Defined.

(** X7.  Stale-while-revalidate end to end.  With the primary key absent,
    a stale snapshot present, no marker and the database reachable: the
    read returns the stale snapshot and detaches one revalidation; once
    that task has run, the next read returns the fresh snapshot from the
    primary key, after the single primary read. *)
Theorem stale_read_then_fresh_read
    (w : world) (stale : value) (rows : list package_row) :
  well_typed w ->
  kv_read GLOBAL_PACKAGES_KEY w = None ->
  kv_read STALE_PACKAGES_KEY w = Some stale ->
  kv_read REVALIDATING_PACKAGES_KEY w = None ->
  package_definition w = inr rows ->
  let packages := map p_name (enabled_backend rows) in
  exists w1 w2 w3,
    getPackagesWithSWR w = (Ok stale, w1)
    /\ detached w1 = detached w ++ [BackgroundRevalidate]
    /\ run_detached BackgroundRevalidate w1 = (Ok tt, w2)
    /\ getPackagesWithSWR w2 = (Ok (VArr packages), w3)
    /\ calls w3 = calls w2 ++ [CGet GLOBAL_PACKAGES_KEY].
Proof.
  intros Hwt Hg Hs Hr Hdb packages.
  pose proof (well_typed_read w STALE_PACKAGES_KEY Hwt) as Hts. rewrite Hs in Hts.
  do 3 eexists. split; [|split; [|split; [|split]]].
  - run_read w. read_in w GLOBAL_PACKAGES_KEY. rewrite Hg. cbn [truthy_read].
    read_in w STALE_PACKAGES_KEY. rewrite Hs, Hts.
    read_in w REVALIDATING_PACKAGES_KEY. rewrite Hr. cbn [truthy_read].
    reflexivity.
  - reflexivity.
  - run w. read_in w REVALIDATING_PACKAGES_KEY. rewrite Hr.
    cbv beta iota delta [negb]. refold w. rewrite Hdb. cbv beta iota.
    fold packages.
    erewrite kv_read_marker
      by (cbn [kv]; rewrite !lookup_insert_ne by discriminate;
          apply lookup_insert_eq).
    rewrite decide_True by reflexivity. cbv beta iota. reflexivity.
  - run_read w.
    erewrite (kv_read_fresh _ _ 300000)
      by (try lia; cbn [kv]; rewrite lookup_delete_ne, lookup_insert_ne by discriminate;
          apply lookup_insert_eq).
    cbn [truthy_read truthy]. reflexivity.
  - cbn [calls]. reflexivity.
Qed.

Lemma stale_read_then_fresh_read_witness :
  exists w1 w2 w3,
    getPackagesWithSWR expired_with_stale = (Ok (VArr ["pkgA"; "pkgB"]), w1)
    /\ detached w1 = detached expired_with_stale ++ [BackgroundRevalidate]
    /\ run_detached BackgroundRevalidate w1 = (Ok tt, w2)
    /\ getPackagesWithSWR w2 = (Ok (VArr ["pkgA"; "pkgB"]), w3)
    /\ calls w3 = calls w2 ++ [CGet GLOBAL_PACKAGES_KEY].
Proof.
  apply (stale_read_then_fresh_read expired_with_stale (VArr ["pkgA"; "pkgB"])
           registry expired_with_stale_well_typed);
    reflexivity.
Defined.

End PackageCacheProofs.

(** ** Properties of TableHandlerService *)

Module TableHandlerProofs.

Import TableHandler.

(** *** Strings *)

Lemma includes_prefix (sub s : string) :
  String.prefix sub s = true -> includes sub s = true.
Proof. intros H. destruct s; cbn [includes]; rewrite H; reflexivity. Qed.

Lemma includes_append_l (sub a s : string) :
  includes sub s = true -> includes sub (a +:+ s) = true.
Proof.
  intros H. induction a as [|c a IH]; [exact H|].
  change (String c a +:+ s) with (String c (a +:+ s)).
  cbn [includes]. rewrite IH. apply orb_true_r.
Qed.

Lemma already_exists_message (name : string) :
  includes "already exists" ("Table " +:+ name +:+ " already exists!") = true.
Proof. do 2 apply includes_append_l. reflexivity. Qed.

Lemma does_not_exist_message (a b : string) :
  includes "does not exist" (a +:+ b +:+ " does not exist.") = true.
Proof. do 2 apply includes_append_l. reflexivity. Qed.

(** *** Running the methods *)

Ltac refold w :=
  fold (table_definition w) (route_definition w) (physical_tables w)
       (KEY_COLUMN_USAGE w) (next_id w) (faults w) (ops w) (logs w).

(** Unfolds the monad, the store and the methods, leaving the loops, the
    list functions and the lookups of [faults]; then folds the projections
    of the initial world [w] back. *)
Ltac run w :=
  cbv [createTable updateTable delete afterEffect
       connect release hasTable findTableByName findTableById saveTable
       findRouteByPath saveRoute deleteRoutesByMainTable
       deleteRelationsByTargetTable queryReferencingFKs queryOutgoingFKs
       dropForeignKey dropTable removeTable deleteColumns deleteRelations
       syncAll loggingService_error validateUniquePropertyNames logger perform
       modify read with_tables with_routes with_physical with_catalog
       with_next_id bind ret throw try_catch try_finally message_of
       table_definition route_definition physical_tables KEY_COLUMN_USAGE
       next_id faults ops logs];
  refold w.

(** Evaluates the string tests of the [catch] blocks on closed messages. *)
Ltac sniff :=
  repeat match goal with
         | |- context [includes ?a ?b] =>
             let v := eval vm_compute in (includes a b) in
             change (includes a b) with v
         end;
  cbv beta iota.

Lemma length_snoc {A} (l : list A) (x : A) : length (l ++ [x]) = S (length l).
Proof. rewrite length_app. simpl. lia. Qed.

(** C7.  For an id with no metadata row (the store answering the lookup and
    the final release), [delete] fails with [ResourceNotFoundException];
    the only calls made are the lookup and the release of the query runner:
    routes, relations, foreign keys, physical tables and metadata rows are
    what they were. *)
Theorem delete_missing_table_not_found (id : Z) (w : world) :
  List.find (fun t => t_id t =? id) (table_definition w) = None ->
  faults w (length (ops w)) (FindTableById id) = None ->
  faults w (S (length (ops w))) Release = None ->
  exists w',
    delete id w = (Throw (ResourceNotFoundException "Table" (pretty id)), w')
    /\ ops w' = ops w ++ [FindTableById id; Release]
    /\ table_definition w' = table_definition w
    /\ route_definition w' = route_definition w
    /\ physical_tables w' = physical_tables w
    /\ KEY_COLUMN_USAGE w' = KEY_COLUMN_USAGE w.
Proof.
  intros Hnone Hfind Hrel. run w.
  rewrite Hfind, Hnone, does_not_exist_message, length_snoc, Hrel.
  eexists. split; [reflexivity|]. cbn [ops table_definition route_definition
    physical_tables KEY_COLUMN_USAGE]. rewrite <- app_assoc. auto.
Qed.


Lemma delete_missing_table_not_found_witness :
  exists w',
    delete 7 orders_world = (Throw (ResourceNotFoundException "Table" (pretty 7)), w')
    /\ ops w' = ops orders_world ++ [FindTableById 7; Release]
    /\ table_definition w' = table_definition orders_world
    /\ route_definition w' = route_definition orders_world
    /\ physical_tables w' = physical_tables orders_world
    /\ KEY_COLUMN_USAGE w' = KEY_COLUMN_USAGE orders_world.
Proof.
  apply (delete_missing_table_not_found 7 orders_world); reflexivity.
Defined.

Lemma validateRelations_run (relations : option (list relation)) (w : world) :
  validateRelations relations w
  = match List.find missing_inverse (default [] relations) with
    | Some relation => (Throw (missing_inverse_error relation), w)
    | None => (Ok tt, w)
    end.
Proof.
  unfold validateRelations.
  induction (default [] relations) as [|r rs IH]; [reflexivity|].
  cbn [for_of List.find]. unfold bind at 1.
  destruct (missing_inverse r); [reflexivity|].
  cbv [ret]. exact IH.
Qed.

Lemma find_none_forall {A} (f : A -> bool) (l : list A) :
  (forall x, x ∈ l -> f x = false) -> List.find f l = None.
Proof.
  intros H. induction l as [|x l IH]; [reflexivity|].
  cbn [List.find]. rewrite (H x) by left.
  apply IH. intros y Hy. apply H. now right.
Qed.

(** A saved table is among the rows. *)
Lemma upsert_member (t : table) (ts : list table) : t ∈ upsert t ts.
Proof.
  unfold upsert. destruct (existsb _ ts) eqn:Hex.
  - apply existsb_exists in Hex as (x & Hx & Hid).
    apply list_elem_of_In in Hx.
    apply (list_elem_of_fmap_2' _ _ x); [exact Hx|]. now rewrite Hid.
  - apply elem_of_app. right. left.
Qed.

Lemma first_duplicate_NoDup (names : list string) :
  NoDup names -> first_duplicate names = None.
Proof.
  induction 1 as [|n rest Hn _ IH]; [reflexivity|].
  cbn [first_duplicate]. now rewrite bool_decide_eq_false_2.
Qed.

(** C2, as stated, fails: with [orders] present as a physical table but
    absent from the metadata, and likewise with [orders] present in the
    metadata but not as a physical table, the duplicate check passes: the
    draft is saved and [createTable] returns normally. *)
Lemma createTable_one_kind_of_existence_is_not_enough :
  ("orders" ∈ physical_tables physical_only
   /\ List.find (fun t => String.eqb (t_name t) "orders")
                (table_definition physical_only) = None
   /\ is_ok (fst (createTable orders_body physical_only)) = true
   /\ ops (snd (createTable orders_body physical_only))
      = [Connect; HasTable "orders"; FindTableByName "orders";
         SaveTable (Draft None "orders"
                          [Column None "id" "int" true None;
                           Column None "total" "int" false None] []);
         SyncAll "orders" "create";
         FindRouteByPath "/orders";
         SaveRoute (Route "/orders" 1 true);
         Release])
  /\ (("orders" ∉ physical_tables metadata_only)
      /\ is_Some (List.find (fun t => String.eqb (t_name t) "orders")
                            (table_definition metadata_only))
      /\ is_ok (fst (createTable orders_body metadata_only)) = true
      /\ ops (snd (createTable orders_body metadata_only))
         = ops metadata_only
           ++ [Connect; HasTable "orders"; FindTableByName "orders";
               SaveTable (Draft None "orders"
                                [Column None "id" "int" true None;
                                 Column None "total" "int" false None] []);
               SyncAll "orders" "create";
               FindRouteByPath "/orders";
               Release]).
Proof.
  split; [split; [|split; [|split]] | split; [|split; [|split]]].
  - apply (bool_decide_unpack _). vm_compute. reflexivity.
  - reflexivity.
  - vm_compute. reflexivity.
  - vm_compute. reflexivity.
  - apply (bool_decide_unpack _). vm_compute. reflexivity.
  - vm_compute. eauto.
  - vm_compute. reflexivity.
  - vm_compute. reflexivity.
Qed.

(** C2 (amended).  For a request whose relations pass [validateRelations],
    with the store answering every call: when the requested name exists
    both as a physical table and as a metadata row, [createTable] fails
    with [DuplicateResourceException] and nothing is written.  When it
    exists as one of the two only, or as neither, the duplicate check does
    not fire: for a draft with distinct property names, whatever is then
    thrown is a [DatabaseException] tagged [create] raised by a later
    check, and a draft that passes the checks on its primary column is
    saved and returned. *)
Theorem createTable_duplicate_when_both_exist (body : table_body) (w : world) :
  quiet w ->
  (forall r, r ∈ default [] (b_relations body) -> missing_inverse r = false) ->
  let existing :=
    List.find (fun t => String.eqb (t_name t) (b_name body)) (table_definition w) in
  exists outcome w',
    createTable body w = (outcome, w')
    /\ (b_name body ∈ physical_tables w /\ is_Some existing ->
        outcome
        = Throw (DuplicateResourceException "Table" "name"
                   (if String.eqb (b_name body) "" then "unknown" else b_name body))
        /\ ops w' = ops w ++ [Connect; HasTable (b_name body);
                              FindTableByName (b_name body); Release]
        /\ table_definition w' = table_definition w
        /\ route_definition w' = route_definition w)
    /\ (~ (b_name body ∈ physical_tables w /\ is_Some existing) ->
        NoDup (map c_name (default [] (b_columns body))
               ++ map r_propertyName (default [] (b_relations body))) ->
        (forall e, outcome = Throw e ->
           exists msg,
             e = DatabaseException ("Failed to create table: " +:+ msg) "create")
        /\ (forall cols idCol,
              b_columns body = Some cols ->
              List.find (fun col => String.eqb (c_name col) "id" && c_isPrimary col)
                        cols = Some idCol ->
              existsb (String.eqb (c_type idCol)) ["int"; "uuid"] = true ->
              length (List.filter c_isPrimary cols) = 1%nat ->
              exists result,
                outcome = Ok result
                /\ t_name result = b_name body
                /\ result ∈ table_definition w'
                /\ SaveTable (Draft None (b_name body) (map strip_table cols)
                                (map strip_sourceTable (default [] (b_relations body))))
                     ∈ ops w')).
Proof.
  intros Hq Hvalid existing.
  unfold createTable. unfold bind at 1.
  rewrite validateRelations_run, (find_none_forall _ _ Hvalid).
  run w. rewrite !Hq. fold existing.
  destruct (decide (b_name body ∈ physical_tables w /\ is_Some existing))
    as [[Hphys Hmeta] | Hnot].
  - rewrite (bool_decide_eq_true_2 _ Hphys), (bool_decide_eq_true_2 _ Hmeta).
    cbn [andb]. rewrite already_exists_message. rewrite ?Hq.
    do 2 eexists. split; [reflexivity|]. split; [|intros []; now split].
    intros _. split; [reflexivity|].
    cbn [ops table_definition route_definition]. rewrite <- !app_assoc. auto.
  - replace (bool_decide (b_name body ∈ physical_tables w)
             && bool_decide (is_Some existing)) with false.
    2:{ symmetry. apply andb_false_iff.
        destruct (decide (b_name body ∈ physical_tables w)) as [Hphys|Hphys];
          [right | left]; apply bool_decide_eq_false_2; tauto. }
    cbv beta iota.
    destruct (b_columns body) as [cols|] eqn:Hcols; cbn [from_option];
      cbv beta iota.
    2:{ sniff. rewrite ?Hq. do 2 eexists. split; [reflexivity|].
        split; [tauto|]. intros _ _. split; [|discriminate].
        intros e [= <-]. eauto. }
    destruct (List.find _ cols) as [idCol|] eqn:Hid; cbv beta iota.
    2:{ sniff. rewrite ?Hq. do 2 eexists. split; [reflexivity|].
        split; [tauto|]. intros _ _. split; [|intros ? ? [= <-] Hf; congruence].
        intros e [= <-]. eauto. }
    destruct (existsb _ _) eqn:Hty; cbv beta iota delta [negb].
    2:{ sniff. rewrite ?Hq. do 2 eexists. split; [reflexivity|].
        split; [tauto|]. intros _ _. split; [intros e [= <-]; eauto|].
        intros ? ? [= <-] Hf Ht. congruence. }
    destruct (length (List.filter c_isPrimary cols) =? 1)%nat eqn:Hcnt;
      cbv beta iota.
    2:{ sniff. rewrite ?Hq. do 2 eexists. split; [reflexivity|].
        split; [tauto|]. intros _ _. split; [intros e [= <-]; eauto|].
        intros ? ? [= <-] _ _ Hone. apply Nat.eqb_neq in Hcnt. contradiction. }
    destruct (first_duplicate _) eqn:Hdup; cbv beta iota.
    { destruct (includes _ _); rewrite ?Hq; cbv beta iota;
        do 2 eexists; (split; [reflexivity|]); (split; [tauto|]); intros _ Hnodup;
        cbn [from_option Datatypes.id] in Hnodup;
        rewrite (first_duplicate_NoDup _ Hnodup) in Hdup; discriminate. }
    rewrite ?Hq. cbv beta iota.
    match goal with |- context [assign_column_ids ?o ?n ?cs] =>
      destruct (assign_column_ids o n cs) as [cols' n1] end.
    match goal with |- context [assign_relation_ids ?o ?n ?rs] =>
      destruct (assign_relation_ids o n rs) as [rels' n2] end.
    repeat (progress (rewrite ?Hq; cbv beta iota)).
    destruct (List.find _ (route_definition w));
      repeat (progress (rewrite ?Hq; cbv beta iota));
      do 2 eexists; (split; [reflexivity|]); (split; [tauto|]); intros _ _;
      (split; [discriminate|]); intros ? ? [= <-] _ _ _;
      eexists; (split; [reflexivity|]); (split; [reflexivity|]);
      cbn [table_definition ops];
      (split; [apply upsert_member|]);
      rewrite !elem_of_app; repeat (first [left; solve [repeat constructor] | right]);
      repeat constructor.
Qed.

Lemma orders_world_quiet : quiet orders_world.
Proof. intros n o. reflexivity. Qed.

Lemma createTable_duplicate_when_both_exist_witness :
  (exists w',
     createTable orders_body orders_world
     = (Throw (DuplicateResourceException "Table" "name" "orders"), w')
     /\ ops w' = ops orders_world ++ [Connect; HasTable "orders";
                                      FindTableByName "orders"; Release]
     /\ table_definition w' = table_definition orders_world
     /\ route_definition w' = route_definition orders_world)
  /\ (exists result w',
        createTable orders_body metadata_only = (Ok result, w')
        /\ t_name result = "orders"
        /\ result ∈ table_definition w').
Proof.
  split.
  - destruct (createTable_duplicate_when_both_exist orders_body orders_world
                orders_world_quiet)
      as (outcome & w' & Hrun & Hboth & _).
    { intros r Hr. inversion Hr. }
    destruct Hboth as (-> & Hops & Htables & Hroutes).
    { split; [apply (bool_decide_unpack _); vm_compute; reflexivity|].
      vm_compute. eauto. }
    exists w'. split; [exact Hrun|]. split; [exact Hops|]. split; assumption.
  - destruct (createTable_duplicate_when_both_exist orders_body metadata_only)
      as (outcome & w' & Hrun & _ & Hone).
    { intros n o. reflexivity. }
    { intros r Hr. inversion Hr. }
    destruct Hone as [_ Hsaved].
    { intros [Hphys _]. revert Hphys. apply (bool_decide_unpack _).
      vm_compute. reflexivity. }
    { apply (bool_decide_unpack _). vm_compute. reflexivity. }
    destruct (Hsaved [Column None "id" "int" true None;
                      Column None "total" "int" false None]
                (Column None "id" "int" true None) eq_refl eq_refl eq_refl eq_refl)
      as (result & -> & Hname & Hin & _).
    exists result, w'. split; [exact Hrun|]. split; assumption.
Defined.


(** *** Validation of a draft *)

Lemma find_first {A} (f : A -> bool) (l : list A) (x : A) :
  x ∈ l -> f x = true ->
  exists y, List.find f l = Some y /\ y ∈ l /\ f y = true.
Proof.
  intros Hx Hfx. destruct (List.find f l) as [y|] eqn:Hfind.
  - apply find_some in Hfind as [Hy Hfy]. exists y.
    rewrite list_elem_of_In. auto.
  - apply list_elem_of_In in Hx.
    rewrite (find_none f l Hfind x Hx) in Hfx. discriminate.
Qed.

Lemma two_members {A} (l : list A) (x y : A) :
  x ∈ l -> y ∈ l -> x <> y -> (2 <= length l)%nat.
Proof.
  intros Hx Hy Hne. destruct l as [|a [|b l]]; cbn [length]; [| |lia].
  - inversion Hx.
  - apply list_elem_of_singleton in Hx, Hy. congruence.
Qed.

Lemma primary_member (cols : list column) (c : column) :
  c ∈ cols -> c_isPrimary c = true -> c ∈ List.filter c_isPrimary cols.
Proof. rewrite !list_elem_of_In, filter_In. auto. Qed.

(** A draft with two primary columns, or with a primary column that is not
    named [id] or not of type [int] / [uuid], fails one of the three checks
    on the primary column. *)
Lemma primary_checks_fail (cols : list column) (idCol : column) :
  (2 <= length (List.filter c_isPrimary cols))%nat
  \/ (exists c, c ∈ cols /\ c_isPrimary c = true
                /\ (c_name c <> "id" \/ (c_type c <> "int" /\ c_type c <> "uuid"))) ->
  List.find (fun col => String.eqb (c_name col) "id" && c_isPrimary col) cols
    = Some idCol ->
  existsb (String.eqb (c_type idCol)) ["int"; "uuid"] = false
  \/ (length (List.filter c_isPrimary cols) =? 1)%nat = false.
Proof.
  intros Hbad Hfind. apply find_some in Hfind as [Hin Hid].
  apply andb_true_iff in Hid as [Hname Hprim]. apply String.eqb_eq in Hname.
  apply list_elem_of_In in Hin.
  assert (Hcount : forall c, c ∈ cols -> c_isPrimary c = true -> c <> idCol ->
                     (length (List.filter c_isPrimary cols) =? 1)%nat = false).
  { intros c Hc Hp Hne. apply Nat.eqb_neq.
    pose proof (two_members _ c idCol (primary_member _ _ Hc Hp)
                  (primary_member _ _ Hin Hprim) Hne). lia. }
  destruct Hbad as [Htwo | (c & Hc & Hp & [Hn | [Hint Huuid]])].
  - right. apply Nat.eqb_neq. lia.
  - right. apply (Hcount c Hc Hp). congruence.
  - destruct (decide (c_type idCol = c_type c)) as [Heq|Hne].
    + left. cbn [existsb]. rewrite Heq.
      apply String.eqb_neq in Hint, Huuid. now rewrite Hint, Huuid.
    + right. apply (Hcount c Hc Hp). congruence.
Qed.

(** Case analysis on the calls that the environment may fail and on the
    string test of the [catch] block. *)
Ltac crunch :=
  repeat (cbv beta iota;
          match goal with
          | |- context [match faults ?w ?n ?o with _ => _ end] =>
              destruct (faults w n o)
          | |- context [if includes ?a ?b then _ else _] =>
              destruct (includes a b)
          end).

(** C8.  [createTable] rejects, with a [ValidationException] carrying the
    property name of an offending relation (the first one), every draft
    that contains a one-to-many relation without [inversePropertyName]; and
    it rejects every draft that has two primary columns or a primary column
    that is not named [id] or not of type [int] or [uuid]. *)
Theorem createTable_rejects_invalid_drafts (body : table_body) (w : world) :
  (forall r, r ∈ default [] (b_relations body) -> missing_inverse r = true ->
     exists r', r' ∈ default [] (b_relations body)
       /\ missing_inverse r' = true
       /\ createTable body w
          = (Throw (ValidationException
                      ("One-to-many relation '" +:+ r_propertyName r'
                       +:+ "' must have inversePropertyName")
                      [("relationName", r_propertyName r');
                       ("relationType", r_type r');
                       ("missingField", "inversePropertyName")]), w))
  /\ (forall cols, b_columns body = Some cols ->
        (2 <= length (List.filter c_isPrimary cols))%nat
        \/ (exists c, c ∈ cols /\ c_isPrimary c = true
              /\ (c_name c <> "id" \/ (c_type c <> "int" /\ c_type c <> "uuid"))) ->
        exists e w', createTable body w = (Throw e, w')).
Proof.
  split.
  - intros r Hr Hmiss.
    destruct (find_first missing_inverse _ r Hr Hmiss) as (r' & Hfind & Hr' & Hm').
    exists r'. split; [exact Hr'|]. split; [exact Hm'|].
    unfold createTable. unfold bind at 1.
    now rewrite validateRelations_run, Hfind.
  - intros cols Hcols Hbad.
    unfold createTable. unfold bind at 1. rewrite validateRelations_run.
    destruct (List.find missing_inverse _); [eauto|].
    run w. rewrite Hcols. crunch; eauto.
    all: destruct (bool_decide _ && bool_decide _); crunch; eauto.
    all: destruct (List.find _ cols) as [idCol|] eqn:Hid; crunch; eauto.
    all: destruct (primary_checks_fail cols idCol Hbad Hid) as [Hty | Hcnt];
      [rewrite Hty | destruct (existsb _ _); [rewrite Hcnt|]];
      cbn [negb]; crunch; eauto.
Qed.


Lemma createTable_rejects_invalid_drafts_witness :
  (exists r', r' ∈ [Relation None "items" "one-to-many" None 2 None]
     /\ missing_inverse r' = true
     /\ createTable one_to_many_body empty_world
        = (Throw (ValidationException
                    ("One-to-many relation '" +:+ r_propertyName r'
                     +:+ "' must have inversePropertyName")
                    [("relationName", r_propertyName r');
                     ("relationType", r_type r');
                     ("missingField", "inversePropertyName")]), empty_world))
  /\ exists e w', createTable two_primary_body empty_world = (Throw e, w').
Proof.
  split.
  - apply (proj1 (createTable_rejects_invalid_drafts one_to_many_body empty_world)
             (Relation None "items" "one-to-many" None 2 None)).
    + left.
    + reflexivity.
  - apply (proj2 (createTable_rejects_invalid_drafts two_primary_body empty_world)
             [Column None "id" "int" true None;
              Column None "code" "int" true None]).
    + reflexivity.
    + left. cbn. lia.
Defined.

(** *** The order of the effects of a successful create *)

(** C3, as stated, fails: in this successful create the Change Propagation
    Hook ([SyncAll]) is invoked right after the metadata is saved, before
    the route is looked up and created. *)
Lemma createTable_hook_precedes_route :
  exists result w',
    createTable orders_body empty_world = (Ok result, w')
    /\ ops w'
       = [Connect; HasTable "orders"; FindTableByName "orders";
          SaveTable (Draft None "orders"
                           [Column None "id" "int" true None;
                            Column None "total" "int" false None] []);
          SyncAll "orders" "create";
          FindRouteByPath "/orders";
          SaveRoute (Route "/orders" 1 true);
          Release].
Proof. do 2 eexists. split; vm_compute; reflexivity. Qed.

(** C3 (amended).  On a successful create, [createTable] performs its
    effects in this order: it persists the table metadata, then invokes the
    Change Propagation Hook with the entity name and type ["create"], and
    only after that looks up the route with path ["/" + name] and creates
    it unless one already exists. *)
Theorem createTable_order_of_effects
    (body : table_body) (w w' : world) (result : table) :
  createTable body w = (Ok result, w') ->
  exists cols,
    b_columns body = Some cols
    /\ t_name result = b_name body
    /\ ops w'
       = ops w
         ++ [Connect; HasTable (b_name body); FindTableByName (b_name body);
             SaveTable (Draft None (b_name body) (map strip_table cols)
                          (map strip_sourceTable (default [] (b_relations body))));
             SyncAll (b_name body) "create";
             FindRouteByPath ("/" +:+ b_name body)]
         ++ match List.find (fun r => String.eqb (rt_path r) ("/" +:+ b_name body))
                            (route_definition w) with
            | None => [SaveRoute (Route ("/" +:+ b_name body) (t_id result) true)]
            | Some _ => []
            end
         ++ [Release].
Proof.
  unfold createTable. unfold bind at 1. rewrite validateRelations_run.
  destruct (List.find missing_inverse _); [discriminate|].
  run w. crunch; try discriminate.
  destruct (bool_decide _ && bool_decide _); crunch; try discriminate.
  destruct (b_columns body) as [cols|]; crunch; try discriminate.
  destruct (List.find _ cols) as [idCol|]; crunch; try discriminate.
  destruct (negb (existsb _ _)); crunch; try discriminate.
  destruct (negb (_ =? 1)%nat); crunch; try discriminate.
  destruct (first_duplicate _); crunch; try discriminate.
  destruct (assign_column_ids _ _ _) as [cols' n1].
  destruct (assign_relation_ids _ _ _) as [rels' n2].
  crunch; try discriminate.
  all: destruct (List.find _ (route_definition w)); crunch; try discriminate.
  all: intros [= <- <-]; exists cols; split; [reflexivity|]; split; [reflexivity|].
  all: cbn [ops t_id]; rewrite <- !app_assoc; reflexivity.
Qed.

Lemma createTable_order_of_effects_witness :
  exists cols,
    b_columns orders_body = Some cols
    /\ t_name (Table 1 "orders"
                 [Column (Some 2) "id" "int" true (Some 1);
                  Column (Some 3) "total" "int" false (Some 1)] [])
       = b_name orders_body
    /\ ops metadata_only
       = ops empty_world
         ++ [Connect; HasTable "orders"; FindTableByName "orders";
             SaveTable (Draft None "orders" (map strip_table cols)
                          (map strip_sourceTable []));
             SyncAll "orders" "create";
             FindRouteByPath ("/" +:+ "orders")]
         ++ [SaveRoute (Route ("/" +:+ "orders") 1 true)]
         ++ [Release].
Proof.
  apply (createTable_order_of_effects orders_body empty_world metadata_only
           (Table 1 "orders"
              [Column (Some 2) "id" "int" true (Some 1);
               Column (Some 3) "total" "int" false (Some 1)] [])).
  vm_compute. reflexivity.
Defined.


(** *** Best-effort drops of foreign keys *)

Section Drops.

Context {A : Type}.
Variable key : A -> string * string.
Variable body : A -> M world unit.
Variable warning : A -> string -> string.

Let drop (x : A) : op := DropForeignKey (fst (key x)) (snd (key x)).

(** One iteration: the drop is issued; failed or not, the iteration
    completes, and a failure leaves a warning and nothing else. *)
Hypothesis body_run : forall x w,
  exists w', body x w = (Ok tt, w')
    /\ ops w' = ops w ++ [drop x]
    /\ same_metadata w w'
    /\ KEY_COLUMN_USAGE w'
       = catalog_after_drops (faults w) (length (ops w)) [key x] (KEY_COLUMN_USAGE w)
    /\ (exists entry, logs w' = logs w ++ [entry])
    /\ (forall msg, faults w (length (ops w)) (drop x) = Some msg ->
          logs w' = logs w ++ [(LWarn, warning x msg)]).

Lemma drops_run (xs : list A) : forall w,
  exists w', for_of xs body w = (Ok tt, w')
    /\ ops w' = ops w ++ map drop xs
    /\ same_metadata w w'
    /\ KEY_COLUMN_USAGE w'
       = catalog_after_drops (faults w) (length (ops w)) (map key xs)
                             (KEY_COLUMN_USAGE w)
    /\ (forall entry, entry ∈ logs w -> entry ∈ logs w')
    /\ (forall i x msg, xs !! i = Some x ->
          faults w (length (ops w) + i) (drop x) = Some msg ->
          (LWarn, warning x msg) ∈ logs w').
Proof.
  induction xs as [|x xs IH]; intros w.
  - exists w. cbn [for_of map catalog_after_drops]. rewrite app_nil_r.
    unfold same_metadata. repeat split; auto. intros i x msg Hi. inversion Hi.
  - destruct (body_run x w) as (w1 & Hrun1 & Hops1 & Hsame1 & Hcat1 & Hlog1 & Hwarn1).
    destruct (IH w1) as (w2 & Hrun2 & Hops2 & Hsame2 & Hcat2 & Hlog2 & Hwarn2).
    destruct Hsame1 as (Ht1 & Hr1 & Hp1 & Hn1 & Hf1).
    destruct Hsame2 as (Ht2 & Hr2 & Hp2 & Hn2 & Hf2).
    exists w2. cbn [for_of]. unfold bind. rewrite Hrun1.
    split; [exact Hrun2|].
    split; [rewrite Hops2, Hops1, <- app_assoc; reflexivity|].
    split; [unfold same_metadata; repeat split; congruence|].
    split.
    { rewrite Hcat2, Hcat1, Hf1, Hops1, length_snoc. reflexivity. }
    split.
    { intros entry He. apply Hlog2. destruct Hlog1 as [e1 ->].
      apply elem_of_app. now left. }
    intros [|i] y msg Hi Hfault.
    + injection Hi as ->. rewrite Nat.add_0_r in Hfault.
      apply Hlog2. rewrite (Hwarn1 _ Hfault). apply elem_of_app. right. left.
    + apply (Hwarn2 i y msg Hi).
      rewrite Hf1, Hops1, length_snoc.
      replace (S (length (ops w)) + i)%nat with (length (ops w) + S i)%nat by lia.
      exact Hfault.
Qed.

End Drops.

Lemma drop_referencing_run (fk : string * string) (w : world) :
  exists w', drop_referencing fk w = (Ok tt, w')
    /\ ops w' = ops w ++ [DropForeignKey (fst fk) (snd fk)]
    /\ same_metadata w w'
    /\ KEY_COLUMN_USAGE w'
       = catalog_after_drops (faults w) (length (ops w)) [fk] (KEY_COLUMN_USAGE w)
    /\ (exists entry, logs w' = logs w ++ [entry])
    /\ (forall msg,
          faults w (length (ops w)) (DropForeignKey (fst fk) (snd fk)) = Some msg ->
          logs w' = logs w
                    ++ [(LWarn, "Failed to drop referencing FK " +:+ snd fk +:+ ": "
                                +:+ msg)]).
Proof.
  unfold drop_referencing. run w. cbn [catalog_after_drops].
  destruct (faults w (length (ops w)) (DropForeignKey (fst fk) (snd fk))) as [msg|];
    eexists; (split; [reflexivity|]);
    cbn [ops logs KEY_COLUMN_USAGE]; unfold same_metadata;
    cbn [table_definition route_definition physical_tables next_id faults];
    repeat split; eauto; try discriminate.
  intros ? [= <-]. reflexivity.
Qed.

Lemma drop_outgoing_run (tableName constraintName : string) (w : world) :
  exists w', drop_outgoing tableName constraintName w = (Ok tt, w')
    /\ ops w' = ops w ++ [DropForeignKey tableName constraintName]
    /\ same_metadata w w'
    /\ KEY_COLUMN_USAGE w'
       = catalog_after_drops (faults w) (length (ops w))
           [(tableName, constraintName)] (KEY_COLUMN_USAGE w)
    /\ (exists entry, logs w' = logs w ++ [entry])
    /\ (forall msg,
          faults w (length (ops w)) (DropForeignKey tableName constraintName)
            = Some msg ->
          logs w' = logs w
                    ++ [(LWarn, "Failed to drop outgoing FK " +:+ constraintName
                                +:+ ": " +:+ msg)]).
Proof.
  unfold drop_outgoing. run w. cbn [catalog_after_drops fst snd].
  destruct (faults w (length (ops w)) (DropForeignKey tableName constraintName))
    as [msg|];
    eexists; (split; [reflexivity|]);
    cbn [ops logs KEY_COLUMN_USAGE]; unfold same_metadata;
    cbn [table_definition route_definition physical_tables next_id faults];
    repeat split; eauto; try discriminate.
  intros ? [= <-]. reflexivity.
Qed.


(** *** Deleting a table *)

(** Calls other than a drop of a foreign key do not fail. *)
Ltac calm H :=
  repeat match goal with
         | |- context [faults ?w ?n ?o] => rewrite (H n o) by (intros; discriminate)
         end.

Ltac advance H :=
  repeat (cbv beta iota; calm H;
          try match goal with
              | |- context [if (0 <? ?n)%nat then _ else _] => destruct (0 <? n)%nat
              end).


Ltac open_world w :=
  destruct w as [? ? ? ? ? ? ? ?];
  unfold same_metadata in *;
  cbn [table_definition route_definition physical_tables KEY_COLUMN_USAGE
       next_id faults ops logs] in *.





Lemma flaky_world_only_drops_fail : only_drops_fail flaky_world.
Proof. intros n [] H; try reflexivity. now destruct (H tableName constraintName). Qed.


(** *** Updating a table *)










(** *** Further properties of the table handler *)

Lemma missing_inverse_false (r : relation) :
  missing_inverse r = false
  <-> (r_type r = "one-to-many" ->
       exists s, r_inversePropertyName r = Some s /\ s <> "").
Proof.
  unfold missing_inverse, has_inverse.
  destruct (String.eqb_spec (r_type r) "one-to-many") as [Hty|Hty]; cbn [andb].
  - destruct (r_inversePropertyName r) as [s|]; cbn [negb].
    + destruct (String.eqb_spec s "") as [Hs|Hs]; cbn [negb]; split;
        try discriminate; eauto.
      intros H. destruct (H Hty) as (s' & [= <-] & Hne). contradiction.
    + split; [discriminate|]. intros H. destruct (H Hty) as (s & Hs & _).
      discriminate.
  - split; [contradiction | reflexivity].
Qed.

(** X8.  [validateRelations] returns normally exactly when every
    one-to-many relation carries a non-empty [inversePropertyName] (an empty
    string counts as missing; relations of other types and an undefined
    list are never rejected); when it throws, the error names a one-to-many
    relation of the list, and in both cases nothing has been called or
    written. *)
Theorem validateRelations_accepts_iff (relations : option (list relation)) (w : world) :
  (validateRelations relations w = (Ok tt, w)
   <-> forall r, r ∈ default [] relations -> r_type r = "one-to-many" ->
         exists s, r_inversePropertyName r = Some s /\ s <> "")
  /\ (forall e w', validateRelations relations w = (Throw e, w') ->
        w' = w
        /\ exists r, r ∈ default [] relations
             /\ r_type r = "one-to-many"
             /\ e = missing_inverse_error r).
Proof.
  rewrite validateRelations_run. split; [split|].
  - destruct (List.find _ _) as [r|] eqn:Hfind; [discriminate|].
    intros _ r Hr. apply missing_inverse_false.
    apply list_elem_of_In in Hr. exact (find_none _ _ Hfind r Hr).
  - intros H. rewrite find_none_forall; [reflexivity|].
    intros r Hr. apply missing_inverse_false. exact (H r Hr).
  - intros e w'. destruct (List.find _ _) as [r|] eqn:Hfind; [|discriminate].
    intros [= <- <-]. split; [reflexivity|].
    apply find_some in Hfind as [Hin Hmiss]. apply list_elem_of_In in Hin.
    exists r. split; [exact Hin|]. split; [|reflexivity].
    unfold missing_inverse in Hmiss. apply andb_true_iff in Hmiss as [Hty _].
    now apply String.eqb_eq.
Qed.

(** X9.  [afterEffect] issues exactly one call, the start of the metadata
    sync, and writes nothing.  It returns normally unless that call itself
    throws; then the failure is logged and escalated as a
    [DatabaseException] tagged [schema-sync] whose message embeds the
    cause. *)
Theorem afterEffect_escalates_a_sync_throw (entityName type : string) (w : world) :
  exists w',
    afterEffect entityName type w
    = (match faults w (length (ops w)) (SyncAll entityName type) with
       | None => Ok tt
       | Some msg =>
           Throw (DatabaseException ("Schema synchronization failed: " +:+ msg)
                                    "schema-sync")
       end, w')
    /\ ops w' = ops w ++ [SyncAll entityName type]
    /\ same_metadata w w'
    /\ KEY_COLUMN_USAGE w' = KEY_COLUMN_USAGE w
    /\ (is_Some (faults w (length (ops w)) (SyncAll entityName type)) ->
        (LError, "Schema synchronization failed") ∈ logs w').
Proof.
  run w. destruct (faults w (length (ops w)) (SyncAll entityName type)) as [msg|];
    eexists; (split; [reflexivity|]); unfold same_metadata;
    cbn [ops logs table_definition route_definition physical_tables
         KEY_COLUMN_USAGE next_id faults];
    repeat split; auto.
  - intros _. apply elem_of_app. right. left.
  - intros [? [=]].
Qed.

(** The query runner is released last, whatever the guarded block did. *)
Lemma release_is_last {A} (m : M world A) (w : world) :
  last (ops (snd (try_finally m release w))) = Some Release.
Proof.
  unfold try_finally, release, perform. destruct (m w) as [r w1].
  destruct (faults w1 (length (ops w1)) Release); cbn [snd ops];
    apply last_snoc.
Qed.

(** Both [createTable] and [updateTable] start with the validation of the
    relations and the opening of the connection. *)
Lemma validated_and_connected {A} (relations : option (list relation))
    (k : M world A) (w : world) :
  (forall r, r ∈ default [] relations -> missing_inverse r = false) ->
  (validateRelations relations ;; connect ;; k) w
  = match faults w (length (ops w)) Connect with
    | None => k (snd (connect w))
    | Some msg => (Throw (JsError msg), snd (connect w))
    end.
Proof.
  intros Hvalid. unfold bind.
  rewrite validateRelations_run, (find_none_forall _ _ Hvalid).
  unfold connect, perform.
  destruct (faults w (length (ops w)) Connect); reflexivity.
Qed.

(** X10.  Once the relations are valid and the connection is open,
    [createTable] and [updateTable] release the query runner on every exit
    path: whatever they return or throw, the last call they make is the
    release. *)
Theorem query_runner_is_released_on_every_exit
    (id : Z) (body : table_body) (w : world) :
  (forall r, r ∈ default [] (b_relations body) -> missing_inverse r = false) ->
  faults w (length (ops w)) Connect = None ->
  last (ops (snd (createTable body w))) = Some Release
  /\ last (ops (snd (updateTable id body w))) = Some Release.
Proof.
  intros Hvalid Hconnect.
  unfold createTable, updateTable.
  rewrite !validated_and_connected, Hconnect by exact Hvalid.
  split; apply release_is_last.
Qed.

Lemma query_runner_is_released_on_every_exit_witness :
  last (ops (snd (createTable two_primary_body orders_world))) = Some Release
  /\ last (ops (snd (updateTable 7 two_primary_body orders_world))) = Some Release.
Proof.
  apply (query_runner_is_released_on_every_exit 7 two_primary_body orders_world).
  - intros r Hr. inversion Hr.
  - reflexivity.
Defined.

(** X11.  [delete] releases the query runner on every exit path, also
    when the table does not exist or the connection cannot be opened: the
    last call it makes is always the release. *)
Theorem delete_always_releases (id : Z) (w : world) :
  last (ops (snd (delete id w))) = Some Release.
Proof. unfold delete. apply release_is_last. Qed.

(** X12.  In [createTable] and [updateTable] the connection is opened
    outside the guarded block: when it cannot be opened, the error of the
    driver is thrown as it is, not wrapped in a [DatabaseException], and
    the only call made is the failed [connect] (no lookup, no write, no
    release). *)
Theorem failed_connect_is_thrown_raw
    (id : Z) (body : table_body) (w : world) (msg : string) :
  (forall r, r ∈ default [] (b_relations body) -> missing_inverse r = false) ->
  faults w (length (ops w)) Connect = Some msg ->
  exists w',
    createTable body w = (Throw (JsError msg), w')
    /\ updateTable id body w = (Throw (JsError msg), w')
    /\ ops w' = ops w ++ [Connect]
    /\ same_metadata w w'.
Proof.
  intros Hvalid Hconnect.
  unfold createTable, updateTable.
  rewrite !validated_and_connected, Hconnect by exact Hvalid.
  eexists. split; [reflexivity|]. split; [reflexivity|].
  unfold same_metadata, connect, perform. rewrite Hconnect.
  cbn [snd ops table_definition route_definition physical_tables next_id faults].
  repeat split; reflexivity.
Qed.

Lemma failed_connect_is_thrown_raw_witness :
  exists w',
    createTable orders_body unreachable_world
    = (Throw (JsError "connect ECONNREFUSED"), w')
    /\ updateTable 1 orders_body unreachable_world
       = (Throw (JsError "connect ECONNREFUSED"), w')
    /\ ops w' = ops unreachable_world ++ [Connect]
    /\ same_metadata unreachable_world w'.
Proof.
  apply (failed_connect_is_thrown_raw 1 orders_body unreachable_world).
  - intros r Hr. inversion Hr.
  - reflexivity.
Defined.

(** *** The environment is not touched

    No method changes which calls fail: the failure that a run meets at its
    [n]-th call is the one the initial environment holds for it. *)

Section Faults.

Context {A B : Type}.

Lemma keeps_faults_ret (a : A) : keeps_faults (ret a).
Proof. intros w. reflexivity. Qed.

Lemma keeps_faults_throw (e : exn) : keeps_faults (throw (A := A) e).
Proof. intros w. reflexivity. Qed.

Lemma keeps_faults_read (f : world -> A) : keeps_faults (read f).
Proof. intros w. reflexivity. Qed.

Lemma keeps_faults_bind (m : M world A) (k : A -> M world B) :
  keeps_faults m -> (forall a, keeps_faults (k a)) -> keeps_faults (bind m k).
Proof.
  intros Hm Hk w. unfold bind. specialize (Hm w).
  destruct (m w) as [[a|e] w1]; cbn [snd] in *; [|exact Hm].
  now rewrite Hk.
Qed.

Lemma keeps_faults_try_catch (m : M world A) (h : exn -> M world A) :
  keeps_faults m -> (forall e, keeps_faults (h e)) -> keeps_faults (try_catch m h).
Proof.
  intros Hm Hh w. unfold try_catch. specialize (Hm w).
  destruct (m w) as [[a|e] w1]; cbn [snd] in *; [exact Hm|].
  now rewrite Hh.
Qed.

Lemma keeps_faults_try_finally (m : M world A) (f : M world unit) :
  keeps_faults m -> keeps_faults f -> keeps_faults (try_finally m f).
Proof.
  intros Hm Hf w. unfold try_finally. specialize (Hm w).
  destruct (m w) as [r w1]. specialize (Hf w1).
  destruct (f w1) as [[u|e] w2]; cbn [snd] in *; congruence.
Qed.

Lemma keeps_faults_for_of (xs : list A) (body : A -> M world unit) :
  (forall x, keeps_faults (body x)) -> keeps_faults (for_of xs body).
Proof.
  intros Hbody. induction xs as [|x xs IH]; cbn [for_of].
  - intros w. reflexivity.
  - unfold keeps_faults, bind in *. intros w. specialize (Hbody x w).
    destruct (body x w) as [[u|e] w1]; cbn [snd] in *; [|exact Hbody].
    now rewrite IH.
Qed.

End Faults.

Lemma keeps_faults_perform (o : op) : keeps_faults (perform o).
Proof.
  intros w. unfold perform. destruct (faults w (length (ops w)) o); reflexivity.
Qed.

Lemma keeps_faults_logger (l : level) (msg : string) : keeps_faults (logger l msg).
Proof. intros w. reflexivity. Qed.

Lemma keeps_faults_modify (f : world -> world) :
  (forall w, faults (f w) = faults w) -> keeps_faults (modify f).
Proof. intros Hf w. exact (Hf w). Qed.

Lemma keeps_faults_saveTable (entity : table_draft) : keeps_faults (saveTable entity).
Proof.
  intros w. unfold saveTable, bind, perform.
  destruct (faults w (length (ops w)) (SaveTable entity)); [reflexivity|].
  cbv beta iota.
  destruct (assign_column_ids _ _ _) as [cols n1].
  destruct (assign_relation_ids _ _ _) as [rels n2]. reflexivity.
Qed.

(** Walks through a method, statement by statement. *)
Ltac frame :=
  repeat first
    [ apply keeps_faults_saveTable
    | apply keeps_faults_perform
    | apply keeps_faults_logger
    | apply keeps_faults_ret
    | apply keeps_faults_throw
    | apply keeps_faults_read
    | apply keeps_faults_modify; intros ?; reflexivity
    | apply keeps_faults_bind; [|intros ?]
    | apply keeps_faults_try_catch; [|intros ?]
    | apply keeps_faults_try_finally
    | apply keeps_faults_for_of; intros ?
    | match goal with
      | |- keeps_faults (match ?x with _ => _ end) => destruct x
      end
    | progress cbv zeta
    | progress unfold validateRelations, afterEffect, connect, release, hasTable,
        findTableByName, findTableById, findRouteByPath, saveRoute,
        deleteRoutesByMainTable, deleteRelationsByTargetTable,
        queryReferencingFKs, queryOutgoingFKs, dropForeignKey, dropTable,
        removeTable, deleteColumns, deleteRelations, syncAll,
        loggingService_error, validateUniquePropertyNames,
        drop_referencing, drop_outgoing ].

Lemma createTable_keeps_faults (body : table_body) : keeps_faults (createTable body).
Proof. unfold createTable. frame. Qed.

Lemma updateTable_keeps_faults (id : Z) (body : table_body) :
  keeps_faults (updateTable id body).
Proof. unfold updateTable. frame. Qed.

Lemma delete_keeps_faults (id : Z) : keeps_faults (delete id).
Proof. unfold delete. frame. Qed.

(** What a guarded block ([try] / [catch] / [finally release]) can throw
    when its [catch] block always rethrows an error in [P]: an error in
    [P], or the error with which the release, the last call of the block,
    has failed. *)
Lemma guarded_block_throws {A} (m : M world A) (h : exn -> M world A)
    (P : exn -> Prop) (w w' : world) (e : exn) :
  (forall e w0, exists e' w1, h e w0 = (Throw e', w1) /\ P e') ->
  try_finally (try_catch m h) release w = (Throw e, w') ->
  P e \/ exists msg,
           e = JsError msg
           /\ last (ops w') = Some Release
           /\ faults w' (Nat.pred (length (ops w'))) Release = Some msg.
Proof.
  intros Hh. unfold try_finally, try_catch, release, perform.
  assert (Hlast : forall (o : outcome A) w1 msg,
            faults w1 (length (ops w1)) Release = Some msg ->
            (Throw (A := A) (JsError msg),
             World (table_definition w1) (route_definition w1) (physical_tables w1)
                   (KEY_COLUMN_USAGE w1) (next_id w1) (faults w1)
                   (ops w1 ++ [Release]) (logs w1)) = (Throw e, w') ->
            exists msg,
              e = JsError msg
              /\ last (ops w') = Some Release
              /\ faults w' (Nat.pred (length (ops w'))) Release = Some msg).
  { intros _ w1 msg Hrel [= <- <-]. exists msg. cbn [ops faults].
    rewrite last_snoc, length_snoc. cbn [Nat.pred]. auto. }
  destruct (m w) as [[a|e0] w1].
  - destruct (faults w1 (length (ops w1)) Release) as [msg|] eqn:Hrel;
      [|discriminate].
    intros Hrun. right. exact (Hlast (Ok a) w1 msg Hrel Hrun).
  - destruct (Hh e0 w1) as (e' & w2 & -> & HP).
    destruct (faults w2 (length (ops w2)) Release) as [msg|] eqn:Hrel.
    + intros Hrun. right. exact (Hlast (Throw e') w2 msg Hrel Hrun).
    + intros [= <- <-]. left. exact HP.
Qed.

Lemma validateRelations_cases (relations : option (list relation)) :
  (exists r, List.find missing_inverse (default [] relations) = Some r
             /\ r ∈ default [] relations /\ r_type r = "one-to-many")
  \/ (forall r, r ∈ default [] relations -> missing_inverse r = false).
Proof.
  destruct (List.find missing_inverse (default [] relations)) as [r|] eqn:Hfind.
  - left. exists r. split; [reflexivity|].
    apply find_some in Hfind as [Hin Hmiss]. split; [now apply list_elem_of_In|].
    unfold missing_inverse in Hmiss. apply andb_true_iff in Hmiss as [Hty _].
    now apply String.eqb_eq.
  - right. intros r Hr. apply list_elem_of_In in Hr.
    exact (find_none _ _ Hfind r Hr).
Qed.

(** X13.  Whatever a run of [createTable] throws is one of: the
    [ValidationException] of [validateRelations] for a one-to-many relation
    of the draft; the raw error with which the environment failed the
    [connect] of this run; the raw error with which it failed the release
    that ends this run; a [DuplicateResourceException] for the table name
    (['unknown'] for an empty name); or a [DatabaseException] tagged
    [create] whose message starts with ['Failed to create table: '].  In
    particular every other validation failure of the draft, and every
    failure of the store inside the guarded block, surfaces as one of the
    last two. *)
Theorem createTable_throws_only (body : table_body) (w w' : world) (e : exn) :
  createTable body w = (Throw e, w') ->
  (exists r, r ∈ default [] (b_relations body) /\ r_type r = "one-to-many"
             /\ e = missing_inverse_error r)
  \/ (exists msg, e = JsError msg
        /\ (faults w (length (ops w)) Connect = Some msg
            \/ (last (ops w') = Some Release
                /\ faults w (Nat.pred (length (ops w'))) Release = Some msg)))
  \/ e = DuplicateResourceException "Table" "name"
           (if String.eqb (b_name body) "" then "unknown" else b_name body)
  \/ (exists m, e = DatabaseException ("Failed to create table: " +:+ m) "create").
Proof.
  intros Hrun.
  pose proof (createTable_keeps_faults body w) as Hfaults.
  rewrite Hrun in Hfaults. cbn [snd] in Hfaults.
  revert Hrun. unfold createTable.
  destruct (validateRelations_cases (b_relations body)) as [(r & Hfind & Hr & Hty) | Hvalid].
  { unfold bind at 1. rewrite validateRelations_run, Hfind.
    intros [= <- <-]. left. eauto. }
  rewrite validated_and_connected by exact Hvalid.
  destruct (faults w (length (ops w)) Connect) as [msg|] eqn:Hconnect.
  { intros [= <- <-]. right. left. eauto. }
  intros He.
  apply (guarded_block_throws _ _
           (fun e => e = DuplicateResourceException "Table" "name"
                          (if String.eqb (b_name body) "" then "unknown"
                           else b_name body)
                     \/ exists m, e = DatabaseException
                                        ("Failed to create table: " +:+ m) "create"))
    in He.
  - destruct He as [[He | He] | (msg & -> & Hlast & Hrel)]; eauto 10.
    rewrite Hfaults in Hrel. right. left. eauto.
  - intros e0 w0. cbv [bind loggingService_error logger throw].
    destruct (includes "already exists" (message_of e0)); eauto 10.
Qed.

Lemma createTable_throws_only_witness :
  let e := DuplicateResourceException "Table" "name" "orders" in
  let w' := snd (createTable orders_body orders_world) in
  (exists r, r ∈ default [] (b_relations orders_body) /\ r_type r = "one-to-many"
             /\ e = missing_inverse_error r)
  \/ (exists msg, e = JsError msg
        /\ (faults orders_world (length (ops orders_world)) Connect = Some msg
            \/ (last (ops w') = Some Release
                /\ faults orders_world (Nat.pred (length (ops w'))) Release
                   = Some msg)))
  \/ e = DuplicateResourceException "Table" "name"
           (if String.eqb (b_name orders_body) "" then "unknown"
            else b_name orders_body)
  \/ (exists m, e = DatabaseException ("Failed to create table: " +:+ m) "create").
Proof.
  apply (createTable_throws_only orders_body orders_world).
  vm_compute. reflexivity.
Defined.

(** X14.  Whatever a run of [updateTable] throws is one of: the
    [ValidationException] of [validateRelations]; the raw error with which
    the environment failed the [connect] of this run; the raw error with
    which it failed the release that ends this run; a
    [ResourceNotFoundException] for the table id; or a [DatabaseException]
    tagged [update] whose message starts with ['Failed to update table: ']. *)
Theorem updateTable_throws_only
    (id : Z) (body : table_body) (w w' : world) (e : exn) :
  updateTable id body w = (Throw e, w') ->
  (exists r, r ∈ default [] (b_relations body) /\ r_type r = "one-to-many"
             /\ e = missing_inverse_error r)
  \/ (exists msg, e = JsError msg
        /\ (faults w (length (ops w)) Connect = Some msg
            \/ (last (ops w') = Some Release
                /\ faults w (Nat.pred (length (ops w'))) Release = Some msg)))
  \/ e = ResourceNotFoundException "Table" (pretty id)
  \/ (exists m, e = DatabaseException ("Failed to update table: " +:+ m) "update").
Proof.
  intros Hrun.
  pose proof (updateTable_keeps_faults id body w) as Hfaults.
  rewrite Hrun in Hfaults. cbn [snd] in Hfaults.
  revert Hrun. unfold updateTable.
  destruct (validateRelations_cases (b_relations body)) as [(r & Hfind & Hr & Hty) | Hvalid].
  { unfold bind at 1. rewrite validateRelations_run, Hfind.
    intros [= <- <-]. left. eauto. }
  rewrite validated_and_connected by exact Hvalid.
  destruct (faults w (length (ops w)) Connect) as [msg|] eqn:Hconnect.
  { intros [= <- <-]. right. left. eauto. }
  intros He.
  apply (guarded_block_throws _ _
           (fun e => e = ResourceNotFoundException "Table" (pretty id)
                     \/ exists m, e = DatabaseException
                                        ("Failed to update table: " +:+ m) "update"))
    in He.
  - destruct He as [[He | He] | (msg & -> & Hlast & Hrel)]; eauto 10.
    rewrite Hfaults in Hrel. right. left. eauto.
  - intros e0 w0. cbv [bind loggingService_error logger throw].
    destruct (includes "does not exist" (message_of e0)); eauto 10.
Qed.

Lemma updateTable_throws_only_witness :
  let e := ResourceNotFoundException "Table" (pretty 7) in
  let w' := snd (updateTable 7 orders_body orders_world) in
  (exists r, r ∈ default [] (b_relations orders_body) /\ r_type r = "one-to-many"
             /\ e = missing_inverse_error r)
  \/ (exists msg, e = JsError msg
        /\ (faults orders_world (length (ops orders_world)) Connect = Some msg
            \/ (last (ops w') = Some Release
                /\ faults orders_world (Nat.pred (length (ops w'))) Release
                   = Some msg)))
  \/ e = ResourceNotFoundException "Table" (pretty 7)
  \/ (exists m, e = DatabaseException ("Failed to update table: " +:+ m) "update").
Proof.
  apply (updateTable_throws_only 7 orders_body orders_world).
  vm_compute. reflexivity.
Defined.

(** X15.  Whatever a run of [delete] throws is a
    [ResourceNotFoundException] for the id, a [DatabaseException] tagged
    [delete] whose message starts with ['Failed to delete table: '], or the
    raw error with which the environment failed the release that ends this
    run; a failure to connect is among the wrapped ones here, the
    connection being opened inside the guarded block. *)
Theorem delete_throws_only (id : Z) (w w' : world) (e : exn) :
  delete id w = (Throw e, w') ->
  e = ResourceNotFoundException "Table" (pretty id)
  \/ (exists m, e = DatabaseException ("Failed to delete table: " +:+ m) "delete")
  \/ (exists msg, e = JsError msg
        /\ last (ops w') = Some Release
        /\ faults w (Nat.pred (length (ops w'))) Release = Some msg).
Proof.
  intros Hrun.
  pose proof (delete_keeps_faults id w) as Hfaults.
  rewrite Hrun in Hfaults. cbn [snd] in Hfaults.
  revert Hrun. unfold delete. intros He.
  apply (guarded_block_throws _ _
           (fun e => e = ResourceNotFoundException "Table" (pretty id)
                     \/ exists m, e = DatabaseException
                                        ("Failed to delete table: " +:+ m) "delete"))
    in He.
  - destruct He as [[He | He] | (msg & -> & Hlast & Hrel)]; auto.
    rewrite Hfaults in Hrel. right. right. eauto.
  - intros e0 w0. cbv [bind loggingService_error logger throw].
    destruct (includes "does not exist" (message_of e0)); eauto 10.
Qed.

Lemma delete_throws_only_witness :
  let e := JsError "release ETIMEDOUT" in
  let w' := snd (delete 7 stuck_world) in
  e = ResourceNotFoundException "Table" (pretty 7)
  \/ (exists m, e = DatabaseException ("Failed to delete table: " +:+ m) "delete")
  \/ (exists msg, e = JsError msg
        /\ last (ops w') = Some Release
        /\ faults stuck_world (Nat.pred (length (ops w'))) Release = Some msg).
Proof.
  apply (delete_throws_only 7 stuck_world).
  vm_compute. reflexivity.
Defined.

(** X16.  The [catch] block of [createTable] classifies a failure by its
    message alone: a failure of the store inside the guarded block (here,
    of the existence check) is reported as a [DuplicateResourceException]
    for the requested name as soon as its message contains
    ['already exists'], and as a [DatabaseException] wrapping the message
    otherwise; nothing is written either way. *)
Theorem createTable_classifies_a_store_failure_by_its_message
    (body : table_body) (w : world) (msg : string) :
  (forall r, r ∈ default [] (b_relations body) -> missing_inverse r = false) ->
  faults w (length (ops w)) Connect = None ->
  faults w (S (length (ops w))) (HasTable (b_name body)) = Some msg ->
  faults w (S (S (length (ops w)))) Release = None ->
  exists w',
    createTable body w
    = (Throw (if includes "already exists" msg
              then DuplicateResourceException "Table" "name"
                     (if String.eqb (b_name body) "" then "unknown" else b_name body)
              else DatabaseException ("Failed to create table: " +:+ msg) "create"),
       w')
    /\ ops w' = ops w ++ [Connect; HasTable (b_name body); Release]
    /\ same_metadata w w'.
Proof.
  intros Hvalid Hconnect Hhas Hrel.
  unfold createTable. rewrite validated_and_connected, Hconnect by exact Hvalid.
  unfold connect, perform. rewrite Hconnect. cbn [snd]. run w.
  rewrite !length_snoc, Hhas. cbv beta iota.
  destruct (includes "already exists" msg); cbv beta iota;
    rewrite !length_snoc, Hrel;
    eexists; (split; [reflexivity|]); unfold same_metadata;
    cbn [ops table_definition route_definition physical_tables next_id faults];
    rewrite <- ?app_assoc; repeat split; reflexivity.
Qed.

Lemma createTable_classifies_a_store_failure_by_its_message_witness :
  exists w',
    createTable orders_body confusing_world
    = (Throw (DuplicateResourceException "Table" "name" "orders"), w')
    /\ ops w' = ops confusing_world ++ [Connect; HasTable "orders"; Release]
    /\ same_metadata confusing_world w'.
Proof.
  apply (createTable_classifies_a_store_failure_by_its_message
           orders_body confusing_world "Table 'migrations' already exists").
  - intros r Hr. inversion Hr.
  - reflexivity.
  - reflexivity.
  - reflexivity.
Defined.

(** X17.  For an id with no metadata row (relations valid, the store
    answering), [updateTable] fails with [ResourceNotFoundException] before
    any deletion or save: the only calls are the connection, the lookup and
    the release, and tables and routes are what they were. *)
Theorem updateTable_missing_table_not_found
    (id : Z) (body : table_body) (w : world) :
  (forall r, r ∈ default [] (b_relations body) -> missing_inverse r = false) ->
  quiet w ->
  List.find (fun t => t_id t =? id) (table_definition w) = None ->
  exists w',
    updateTable id body w = (Throw (ResourceNotFoundException "Table" (pretty id)), w')
    /\ ops w' = ops w ++ [Connect; FindTableById id; Release]
    /\ same_metadata w w'.
Proof.
  intros Hvalid Hq Hfind.
  unfold updateTable. rewrite validated_and_connected, Hq by exact Hvalid.
  unfold connect, perform. rewrite Hq. cbn [snd]. run w.
  rewrite !Hq, Hfind. cbv beta iota.
  rewrite does_not_exist_message, ?Hq.
  eexists. split; [reflexivity|]. unfold same_metadata.
  cbn [ops table_definition route_definition physical_tables next_id faults].
  rewrite <- ?app_assoc. repeat split; reflexivity.
Qed.

Lemma updateTable_missing_table_not_found_witness :
  exists w',
    updateTable 7 orders_body orders_world
    = (Throw (ResourceNotFoundException "Table" (pretty 7)), w')
    /\ ops w' = ops orders_world ++ [Connect; FindTableById 7; Release]
    /\ same_metadata orders_world w'.
Proof.
  apply (updateTable_missing_table_not_found 7 orders_body orders_world).
  - intros r Hr. inversion Hr.
  - exact orders_world_quiet.
  - reflexivity.
Defined.

(** X18.  [updateTable] of an existing table with no primary column among
    the submitted ones (or with no columns at all) fails with a
    [DatabaseException] tagged [update], before any deletion or save: the
    only calls are the connection, the lookup and the release, and tables
    and routes are what they were. *)
Theorem updateTable_without_primary_column_writes_nothing
    (id : Z) (body : table_body) (w : world) (exists_ : table) :
  (forall r, r ∈ default [] (b_relations body) -> missing_inverse r = false) ->
  quiet w ->
  List.find (fun t => t_id t =? id) (table_definition w) = Some exists_ ->
  existsb c_isPrimary (default [] (b_columns body)) = false ->
  exists w',
    updateTable id body w
    = (Throw (DatabaseException
                ("Failed to update table: "
                 +:+ "Table must contain an id column with isPrimary = true!")
                "update"), w')
    /\ ops w' = ops w ++ [Connect; FindTableById id; Release]
    /\ same_metadata w w'.
Proof.
  intros Hvalid Hq Hfind Hprim.
  unfold updateTable. rewrite validated_and_connected, Hq by exact Hvalid.
  unfold connect, perform. rewrite Hq. cbn [snd]. run w.
  rewrite !Hq, Hfind, Hprim. cbv beta iota delta [negb].
  change (includes "does not exist"
            "Table must contain an id column with isPrimary = true!") with false.
  cbv beta iota. rewrite ?Hq.
  eexists. split; [reflexivity|]. unfold same_metadata.
  cbn [ops table_definition route_definition physical_tables next_id faults].
  rewrite <- ?app_assoc. repeat split; reflexivity.
Qed.

Lemma updateTable_without_primary_column_writes_nothing_witness :
  exists w',
    updateTable 1 (Body "orders" (Some [Column None "total" "int" false None]) Absent)
                orders_world
    = (Throw (DatabaseException
                ("Failed to update table: "
                 +:+ "Table must contain an id column with isPrimary = true!")
                "update"), w')
    /\ ops w' = ops orders_world ++ [Connect; FindTableById 1; Release]
    /\ same_metadata orders_world w'.
Proof.
  apply (updateTable_without_primary_column_writes_nothing 1
           (Body "orders" (Some [Column None "total" "int" false None]) Absent)
           orders_world orders_table).
  - intros r Hr. inversion Hr.
  - exact orders_world_quiet.
  - reflexivity.
  - reflexivity.
Defined.

Lemma owned_columns (owner : Z) (cs : list column) : forall n,
  Forall (fun c => c_table c = None) cs ->
  Forall (fun c => c_table c = Some owner) (fst (assign_column_ids owner n cs)).
Proof.
  induction cs as [|c cs IH]; intros n Hcs; cbn [assign_column_ids]; [constructor|].
  apply Forall_cons in Hcs as [Hc Hcs].
  destruct (c_id c);
    match goal with |- context [assign_column_ids owner ?m cs] =>
      specialize (IH m Hcs); destruct (assign_column_ids owner m cs) end;
    constructor; auto; cbn [c_table]; now rewrite Hc.
Qed.

Lemma owned_relations (owner : Z) (rs : list relation) : forall n,
  Forall (fun r => r_sourceTable r = None) rs ->
  Forall (fun r => r_sourceTable r = Some owner) (fst (assign_relation_ids owner n rs)).
Proof.
  induction rs as [|r rs IH]; intros n Hrs; cbn [assign_relation_ids]; [constructor|].
  apply Forall_cons in Hrs as [Hr Hrs].
  destruct (r_id r);
    match goal with |- context [assign_relation_ids owner ?m rs] =>
      specialize (IH m Hrs); destruct (assign_relation_ids owner m rs) end;
    constructor; auto; cbn [r_sourceTable]; now rewrite Hr.
Qed.

Lemma stripped_columns (cols : list column) :
  Forall (fun c => c_table c = None) (map strip_table cols).
Proof. apply Forall_forall. intros c Hc. apply list_elem_of_fmap in Hc as (x & -> & _). reflexivity. Qed.

Lemma stripped_relations (rels : list relation) :
  Forall (fun r => r_sourceTable r = None) (map strip_sourceTable rels).
Proof. apply Forall_forall. intros r Hr. apply list_elem_of_fmap in Hr as (x & -> & _). reflexivity. Qed.

(** X19.  After a successful [createTable]: the new table carries the next
    generated id and the requested name and is among the metadata rows;
    whatever owner the submitted columns and relations named, the persisted
    ones belong to the new table; a route with path ['/' + name] exists, the
    routes being the former ones plus, only if none had that path, one
    route to the new table; and neither the physical tables nor the catalog
    have been touched (the physical table is not created here). *)
Theorem createTable_success_state
    (body : table_body) (w w' : world) (result : table) :
  createTable body w = (Ok result, w') ->
  let path := "/" +:+ b_name body in
  t_id result = next_id w
  /\ t_name result = b_name body
  /\ result ∈ table_definition w'
  /\ Forall (fun c => c_table c = Some (t_id result)) (t_columns result)
  /\ Forall (fun r => r_sourceTable r = Some (t_id result)) (t_relations result)
  /\ route_definition w'
     = route_definition w
       ++ match List.find (fun r => String.eqb (rt_path r) path) (route_definition w) with
          | None => [Route path (next_id w) true]
          | Some _ => []
          end
  /\ (exists r, r ∈ route_definition w' /\ rt_path r = path)
  /\ physical_tables w' = physical_tables w
  /\ KEY_COLUMN_USAGE w' = KEY_COLUMN_USAGE w.
Proof.
  unfold createTable. unfold bind at 1. rewrite validateRelations_run.
  destruct (List.find missing_inverse _); [discriminate|].
  run w. crunch; try discriminate.
  destruct (bool_decide _ && bool_decide _); crunch; try discriminate.
  destruct (b_columns body) as [cols|]; crunch; try discriminate.
  destruct (List.find _ cols) as [idCol|]; crunch; try discriminate.
  destruct (negb (existsb _ _)); crunch; try discriminate.
  destruct (negb (_ =? 1)%nat); crunch; try discriminate.
  destruct (first_duplicate _); crunch; try discriminate.
  match goal with |- context [assign_column_ids ?o ?n ?cs] =>
    pose proof (owned_columns o cs n (stripped_columns _)) as Hcs;
    destruct (assign_column_ids o n cs) as [cols' n1]
  end; cbn [fst] in Hcs.
  match goal with |- context [assign_relation_ids ?o ?n ?rs] =>
    pose proof (owned_relations o rs n (stripped_relations _)) as Hrs;
    destruct (assign_relation_ids o n rs) as [rels' n2]
  end; cbn [fst] in Hrs.
  cbn [from_option Datatypes.id d_id] in Hcs, Hrs.
  crunch; try discriminate.
  all: destruct (List.find _ (route_definition w)) as [r0|] eqn:Hroute;
    crunch; try discriminate.
  all: intros [= <- <-]; cbv zeta;
    cbn [t_id t_name t_columns t_relations table_definition route_definition
         physical_tables KEY_COLUMN_USAGE].
  all: split; [reflexivity|]; split; [reflexivity|]; split; [apply upsert_member|].
  all: split; [exact Hcs|]; split; [exact Hrs|].
  all: split; [rewrite ?app_nil_r; reflexivity|].
  all: split; [|split; reflexivity].
  - apply find_some in Hroute as [Hin Hpath]. exists r0.
    split; [now apply list_elem_of_In | now apply String.eqb_eq].
  - eexists. split; [apply elem_of_app; right; left | reflexivity].
Qed.

Lemma createTable_success_state_witness :
  t_id orders_table = next_id empty_world
  /\ t_name orders_table = b_name orders_body
  /\ orders_table ∈ table_definition metadata_only
  /\ Forall (fun c => c_table c = Some (t_id orders_table)) (t_columns orders_table)
  /\ Forall (fun r => r_sourceTable r = Some (t_id orders_table))
            (t_relations orders_table)
  /\ route_definition metadata_only
     = route_definition empty_world
       ++ match List.find (fun r => String.eqb (rt_path r) ("/" +:+ b_name orders_body))
                          (route_definition empty_world) with
          | None => [Route ("/" +:+ b_name orders_body) (next_id empty_world) true]
          | Some _ => []
          end
  /\ (exists r, r ∈ route_definition metadata_only
                /\ rt_path r = "/" +:+ b_name orders_body)
  /\ physical_tables metadata_only = physical_tables empty_world
  /\ KEY_COLUMN_USAGE metadata_only = KEY_COLUMN_USAGE empty_world.
Proof.
  apply (createTable_success_state orders_body empty_world metadata_only orders_table).
  vm_compute. reflexivity.
Defined.

(** X20.  A draft for a new table name that fails one of the checks on the
    primary column (two primary columns, or a primary column not named [id]
    or not of type [int] / [uuid]) is rejected, the store answering, with a
    [DatabaseException] tagged [create], not a [ValidationException], and
    nothing is written: the only calls are the connection, the two
    existence lookups and the release. *)
Theorem createTable_invalid_primary_writes_nothing
    (body : table_body) (w : world) (cols : list column) :
  (forall r, r ∈ default [] (b_relations body) -> missing_inverse r = false) ->
  quiet w ->
  List.find (fun t => String.eqb (t_name t) (b_name body)) (table_definition w) = None ->
  b_columns body = Some cols ->
  (2 <= length (List.filter c_isPrimary cols))%nat
  \/ (exists c, c ∈ cols /\ c_isPrimary c = true
        /\ (c_name c <> "id" \/ (c_type c <> "int" /\ c_type c <> "uuid"))) ->
  exists msg w',
    createTable body w
    = (Throw (DatabaseException ("Failed to create table: " +:+ msg) "create"), w')
    /\ ops w' = ops w ++ [Connect; HasTable (b_name body);
                          FindTableByName (b_name body); Release]
    /\ same_metadata w w'.
Proof.
  intros Hvalid Hq Hnew Hcols Hbad.
  unfold createTable. rewrite validated_and_connected, Hq by exact Hvalid.
  unfold connect, perform. rewrite Hq. cbn [snd]. run w.
  rewrite !Hq, Hnew, Hcols.
  replace (bool_decide (is_Some (@None table))) with false
    by (symmetry; apply bool_decide_eq_false; intros [? [=]]).
  rewrite andb_false_r. cbv beta iota.
  destruct (List.find _ cols) as [idCol|] eqn:Hid; cbv beta iota.
  - destruct (primary_checks_fail cols idCol Hbad Hid) as [Hty | Hcnt];
      [rewrite Hty | destruct (existsb _ _); [rewrite Hcnt|]];
      cbv beta iota delta [negb]; sniff; rewrite ?Hq;
      do 2 eexists; (split; [reflexivity|]); unfold same_metadata;
      cbn [ops table_definition route_definition physical_tables next_id faults];
      rewrite <- ?app_assoc; repeat split; reflexivity.
  - sniff. rewrite ?Hq.
    do 2 eexists. split; [reflexivity|]. unfold same_metadata.
    cbn [ops table_definition route_definition physical_tables next_id faults].
    rewrite <- ?app_assoc. repeat split; reflexivity.
Qed.

Lemma createTable_invalid_primary_writes_nothing_witness :
  exists msg w',
    createTable two_primary_body empty_world
    = (Throw (DatabaseException ("Failed to create table: " +:+ msg) "create"), w')
    /\ ops w' = ops empty_world ++ [Connect; HasTable (b_name two_primary_body);
                                    FindTableByName (b_name two_primary_body);
                                    Release]
    /\ same_metadata empty_world w'.
Proof.
  apply (createTable_invalid_primary_writes_nothing two_primary_body empty_world
           [Column None "id" "int" true None; Column None "code" "int" true None]).
  - intros r Hr. inversion Hr.
  - intros n o. reflexivity.
  - reflexivity.
  - reflexivity.
  - left. cbn. lia.
Defined.

(** Closes one execution path of [createTable_does_not_roll_back]: the calls
    made, and either no route lookup among them or the table persisted. *)
Ltac path_of_create :=
  do 3 eexists; split; [reflexivity|]; split;
  [ cbn [ops]; rewrite <- ?app_assoc;
    first [reflexivity | symmetry; apply app_nil_r]
  | cbn [table_definition];
    first
      [ (* the route lookup was never issued *)
        solve [ intros Hin; exfalso;
                rewrite ?elem_of_app, ?elem_of_cons, ?elem_of_nil in Hin;
                intuition discriminate ]
      | (* it was: the table is there and the hook has been invoked *)
        intros _; split;
        [ eexists; split; [apply upsert_member|]; split; reflexivity
        | rewrite ?elem_of_app, ?elem_of_cons; auto 10 ] ] ].

(** X21.  [createTable] does not roll back.  On every execution path,
    successful or not, on which the route lookup has been issued, the new
    table row (next generated id, requested name) is among the metadata
    rows and the Change Propagation Hook has already been invoked: a
    failure of the route step leaves both in place. *)
Theorem createTable_does_not_roll_back (body : table_body) (w : world) :
  exists outcome w' calls,
    createTable body w = (outcome, w')
    /\ ops w' = ops w ++ calls
    /\ (FindRouteByPath ("/" +:+ b_name body) ∈ calls ->
        (exists t, t ∈ table_definition w'
                   /\ t_id t = next_id w /\ t_name t = b_name body)
        /\ SyncAll (b_name body) "create" ∈ calls).
Proof.
  unfold createTable. unfold bind at 1. rewrite validateRelations_run.
  destruct (List.find missing_inverse _); [path_of_create|].
  run w. crunch; try path_of_create.
  all: destruct (bool_decide _ && bool_decide _); crunch; try path_of_create.
  all: destruct (b_columns body) as [cols|]; crunch; try path_of_create.
  all: destruct (List.find _ cols) as [idCol|]; crunch; try path_of_create.
  all: destruct (negb (existsb _ _)); crunch; try path_of_create.
  all: destruct (negb (_ =? 1)%nat); crunch; try path_of_create.
  all: destruct (first_duplicate _); crunch; try path_of_create.
  all: destruct (assign_column_ids _ _ _) as [cols' n1].
  all: destruct (assign_relation_ids _ _ _) as [rels' n2].
  all: crunch; try path_of_create.
  all: destruct (List.find _ (route_definition w)); crunch; path_of_create.
Qed.

(** *** What a deletion leaves behind *)

(** The world after the deletion of an existing table, in an environment
    where only drops of foreign keys may fail. *)
Lemma delete_existing_run (id : Z) (w : world) (t : table) :
  only_drops_fail w ->
  List.find (fun x => t_id x =? id) (table_definition w) = Some t ->
  exists w' n1 n2 catalog1,
    delete id w = (Ok t, w')
    /\ catalog1 = catalog_after_drops (faults w) n1
                    (referencingFKs (t_name t) (KEY_COLUMN_USAGE w))
                    (KEY_COLUMN_USAGE w)
    /\ ops w'
       = ops w
         ++ [FindTableById id; Connect; DeleteRoutesByMainTable id;
             DeleteRelationsByTargetTable id; QueryReferencingFKs (t_name t)]
         ++ map (fun fk => DropForeignKey (fst fk) (snd fk))
                (referencingFKs (t_name t) (KEY_COLUMN_USAGE w))
         ++ [QueryOutgoingFKs (t_name t)]
         ++ map (DropForeignKey (t_name t)) (outgoingFKs (t_name t) catalog1)
         ++ [HasTable (t_name t)]
         ++ (if bool_decide (t_name t ∈ physical_tables w)
             then [DropTable (t_name t)] else [])
         ++ [RemoveTable id; SyncAll (t_name t) "update"; Release]
    /\ faults w' = faults w
    /\ next_id w' = next_id w
    /\ table_definition w'
       = filter (fun x => t_id x <> id)
                (map (without_relations_to id) (table_definition w))
    /\ route_definition w'
       = filter (fun r => rt_mainTable r <> id) (route_definition w)
    /\ physical_tables w'
       = (if bool_decide (t_name t ∈ physical_tables w)
          then filter (fun n => n <> t_name t) (physical_tables w)
          else physical_tables w)
    /\ KEY_COLUMN_USAGE w'
       = (if bool_decide (t_name t ∈ physical_tables w)
          then filter (fun k => TABLE_NAME k <> t_name t)
          else fun catalog => catalog)
           (catalog_after_drops (faults w) n2
              (map (fun c => (t_name t, c)) (outgoingFKs (t_name t) catalog1))
              catalog1).
Proof.
  intros Hquiet Hfind.
  assert (Hid : t_id t = id).
  { apply find_some in Hfind as [_ Heq]. now apply Z.eqb_eq. }
  run w. calm Hquiet. rewrite Hfind. advance Hquiet.
  all: match goal with |- context [for_of ?xs drop_referencing ?W] =>
    destruct (drops_run (fun fk => fk) drop_referencing
                (fun fk msg => "Failed to drop referencing FK " +:+ snd fk +:+ ": "
                               +:+ msg)
                drop_referencing_run xs W)
      as (w2 & Hrun2 & Hops2 & Hsame2 & Hcat2 & _ & _);
    rewrite Hrun2
  end.
  all: open_world w2; destruct Hsame2 as (-> & -> & -> & -> & ->);
    rewrite map_id in *; subst; advance Hquiet.
  all: match goal with |- context [for_of ?xs (drop_outgoing ?n) ?W] =>
    destruct (drops_run (fun c => (n, c)) (drop_outgoing n)
                (fun c msg => "Failed to drop outgoing FK " +:+ c +:+ ": " +:+ msg)
                (drop_outgoing_run n) xs W)
      as (w3 & Hrun3 & Hops3 & Hsame3 & Hcat3 & _ & _);
    rewrite Hrun3
  end.
  all: open_world w3; destruct Hsame3 as (-> & -> & -> & -> & ->);
    subst; advance Hquiet.
  all: destruct (bool_decide (t_name t ∈ physical_tables w)) eqn:Hphys;
    advance Hquiet;
    do 4 eexists; (split; [reflexivity|]); (split; [reflexivity|]);
    cbn [ops logs route_definition table_definition physical_tables
         KEY_COLUMN_USAGE faults next_id];
    rewrite <- ?app_assoc; repeat split; reflexivity.
Qed.

(** X22.  Deleting twice: after the deletion of an existing table (only
    drops of foreign keys failing, if anything), a second [delete] of the
    same id fails with [ResourceNotFoundException] and does nothing but the
    lookup and the release. *)
Theorem delete_twice_is_not_found (id : Z) (w : world) (t : table) :
  only_drops_fail w ->
  List.find (fun x => t_id x =? id) (table_definition w) = Some t ->
  exists w1 w2,
    delete id w = (Ok t, w1)
    /\ delete id w1 = (Throw (ResourceNotFoundException "Table" (pretty id)), w2)
    /\ ops w2 = ops w1 ++ [FindTableById id; Release]
    /\ same_metadata w1 w2.
Proof.
  intros Hquiet Hfind.
  destruct (delete_existing_run id w t Hquiet Hfind)
    as (w1 & n1 & n2 & catalog1 & Hrun & _ & _ & Hfaults & _ & Htables & _).
  assert (Hgone : List.find (fun x => t_id x =? id) (table_definition w1) = None).
  { apply find_none_forall. intros x Hx. rewrite Htables in Hx.
    apply list_elem_of_filter in Hx as [Hne _]. now apply Z.eqb_neq. }
  assert (Hquiet1 : only_drops_fail w1).
  { intros n o Ho. rewrite Hfaults. now apply Hquiet. }
  exists w1. eexists. split; [exact Hrun|].
  run w1. calm Hquiet1. rewrite Hgone. cbv beta iota.
  rewrite does_not_exist_message. calm Hquiet1.
  split; [reflexivity|]. unfold same_metadata.
  cbn [ops table_definition route_definition physical_tables next_id faults].
  rewrite <- ?app_assoc. repeat split; reflexivity.
Qed.

Lemma delete_twice_is_not_found_witness :
  exists w1 w2,
    delete 1 flaky_world = (Ok orders_table, w1)
    /\ delete 1 w1 = (Throw (ResourceNotFoundException "Table" (pretty 1)), w2)
    /\ ops w2 = ops w1 ++ [FindTableById 1; Release]
    /\ same_metadata w1 w2.
Proof.
  exact (delete_twice_is_not_found 1 flaky_world orders_table
           flaky_world_only_drops_fail eq_refl).
Defined.

Lemma referencingFKs_like_FK (name : string) (catalog : list key_column_usage)
    (fk : string * string) :
  fk ∈ referencingFKs name catalog -> like_FK (snd fk) = true.
Proof.
  unfold referencingFKs. rewrite elem_of_remove_dups, list_elem_of_fmap.
  intros (k & -> & Hk). apply list_elem_of_filter in Hk as [[_ Hlike] _].
  exact Hlike.
Qed.

Lemma catalog_after_drops_keeps (fails : nat -> op -> option string)
    (k : key_column_usage) (fks : list (string * string)) :
  (forall fk, fk ∈ fks -> fk <> (TABLE_NAME k, CONSTRAINT_NAME k)) ->
  forall n catalog, k ∈ catalog -> k ∈ catalog_after_drops fails n fks catalog.
Proof.
  induction fks as [|fk fks IH]; intros Hne n catalog Hk; [exact Hk|].
  cbn [catalog_after_drops]. apply IH.
  - intros fk' Hfk'. apply Hne. now right.
  - destruct (fails n _); [exact Hk|].
    apply list_elem_of_filter. split; [|exact Hk].
    intros [Ht Hc]. apply (Hne fk); [left|].
    destruct fk as [a b]. cbn [fst snd] in Ht, Hc. now subst.
Qed.

(** X23.  The discovery of the referencing foreign keys selects the
    constraints named [FK_...] only.  A foreign key of another table that
    references the deleted table under any other name is never dropped by
    [delete]: no drop is issued for it and it is still in the catalog after
    a deletion that otherwise went through. *)
Theorem delete_leaves_foreign_keys_named_otherwise
    (id : Z) (w : world) (t : table) (k : key_column_usage) :
  only_drops_fail w ->
  List.find (fun x => t_id x =? id) (table_definition w) = Some t ->
  k ∈ KEY_COLUMN_USAGE w ->
  REFERENCED_TABLE_NAME k = Some (t_name t) ->
  TABLE_NAME k <> t_name t ->
  like_FK (CONSTRAINT_NAME k) = false ->
  exists w' calls,
    delete id w = (Ok t, w')
    /\ ops w' = ops w ++ calls
    /\ (DropForeignKey (TABLE_NAME k) (CONSTRAINT_NAME k) ∉ calls)
    /\ k ∈ KEY_COLUMN_USAGE w'.
Proof.
  intros Hquiet Hfind Hk Href Htable Hlike.
  destruct (delete_existing_run id w t Hquiet Hfind)
    as (w' & n1 & n2 & catalog1 & Hrun & Hcat1 & Hops & _ & _ & _ & _ & _ & Hcat).
  exists w'. eexists. split; [exact Hrun|]. split; [exact Hops|]. split.
  - rewrite !not_elem_of_app. repeat split.
    all: try solve [ rewrite ?not_elem_of_cons; repeat split; try discriminate;
                     apply not_elem_of_nil ].
    + intros H. apply list_elem_of_fmap in H as (fk & [= Ht Hc] & Hfk).
      apply referencingFKs_like_FK in Hfk. rewrite <- Hc in Hfk. congruence.
    + intros H. apply list_elem_of_fmap in H as (c & [= Ht Hc] & _).
      contradiction.
    + destruct (bool_decide _); [|apply not_elem_of_nil].
      rewrite not_elem_of_cons. split; [discriminate | apply not_elem_of_nil].
  - assert (Hk1 : k ∈ catalog1).
    { rewrite Hcat1. apply catalog_after_drops_keeps; [|exact Hk].
      intros fk Hfk ->. apply referencingFKs_like_FK in Hfk.
      cbn [snd] in Hfk. congruence. }
    assert (Hk2 : k ∈ catalog_after_drops (faults w) n2
                     (map (fun c => (t_name t, c)) (outgoingFKs (t_name t) catalog1))
                     catalog1).
    { apply catalog_after_drops_keeps; [|exact Hk1].
      intros fk Hfk ->. apply list_elem_of_fmap in Hfk as (c & [= Ht _] & _).
      contradiction. }
    rewrite Hcat. destruct (bool_decide _); [|exact Hk2].
    apply list_elem_of_filter. split; [exact Htable | exact Hk2].
Qed.

Lemma delete_leaves_foreign_keys_named_otherwise_witness :
  exists w' calls,
    delete 1 legacy_world = (Ok orders_table, w')
    /\ ops w' = ops legacy_world ++ calls
    /\ (DropForeignKey "items" "items_ibfk_1" ∉ calls)
    /\ KeyColumnUsage "items" "items_ibfk_1" (Some "orders") ∈ KEY_COLUMN_USAGE w'.
Proof.
  apply (delete_leaves_foreign_keys_named_otherwise 1 legacy_world orders_table
           (KeyColumnUsage "items" "items_ibfk_1" (Some "orders"))).
  - intros n o _. reflexivity.
  - reflexivity.
  - left.
  - reflexivity.
  - discriminate.
  - reflexivity.
Defined.

End TableHandlerProofs.
